(** * svg2pdf: a shallow embedding of [svg2pdf.go] and its properties

    The Go package converts a small subset of SVG into a one-file PDF.  The
    development follows the source function by function: strings are byte
    strings ([string], one [ascii] per byte, as Go's [len] counts them),
    [int] is a 64-bit two's-complement integer carried in [Z] with its
    wrap-around written out, [float64] is the primitive binary64 type, a
    run-time panic is an explicit outcome, and the calls into the operating
    system are recorded in a trace. *)

From Stdlib Require Import ZArith String List Ascii Bool Lia DecimalString.
From Stdlib Require Import Floats.PrimFloat Floats.FloatOps Floats.SpecFloat.
From Stdlib Require Uint63.
Import ListNotations.

Open Scope string_scope.
Open Scope Z_scope.

(** ** The Go run time: integers, strings, formatting *)

Module Go.

(** Go's [int] on the 64-bit targets: arithmetic wraps around. *)
Definition int64 (z : Z) : Z := (z + 2 ^ 63) mod 2 ^ 64 - 2 ^ 63.

Definition max_int : Z := 2 ^ 63 - 1.

(** [len(s)] of a string is its number of bytes. *)
Definition len (s : string) : Z := Z.of_nat (String.length s).

(** [strings.Join(elems, sep)]. *)
Definition Join (elems : list string) (sep : string) : string :=
  String.concat sep elems.

(** [strconv.Itoa] and the verb [%d]. *)
Definition Itoa (z : Z) : string := NilZero.string_of_int (Z.to_int z).

Fixpoint zeros (n : nat) : string :=
  match n with
  | O => ""
  | S k => String "0" (zeros k)
  end.

(** The verb [%010d]: the sign first, then zeros up to a width of ten. *)
Definition Sprintf_010d (z : Z) : string :=
  if z <? 0
  then let digits := Itoa (- z) in
       "-" ++ zeros (9 - String.length digits) ++ digits
  else let digits := Itoa z in
       zeros (10 - String.length digits) ++ digits.

(** The verb [%.2f].  Go converts the binary value exactly to decimal and
    rounds it at the second fractional digit, ties to even; the sign of the
    float is printed also when the rounded magnitude is zero. *)
Definition round_half_even (n d : Z) : Z :=
  let q := n / d in
  match 2 * (n mod d) ?= d with
  | Lt => q
  | Gt => q + 1
  | Eq => if Z.even q then q else q + 1
  end.

Definition hundredths (m : positive) (e : Z) : Z :=
  if 0 <=? e
  then Zpos m * 2 ^ e * 100
  else round_half_even (Zpos m * 100) (2 ^ (- e)).

Definition two_digits (n : Z) : string :=
  if n <? 10 then "0" ++ Itoa n else Itoa n.

Definition fixed2 (neg : bool) (h : Z) : string :=
  (if neg then "-" else "") ++ Itoa (h / 100) ++ "." ++ two_digits (h mod 100).

Definition Sprintf_2f (x : float) : string :=
  match Prim2SF x with
  | S754_nan => "NaN"
  | S754_infinity s => if s then "-Inf" else "+Inf"
  | S754_zero s => fixed2 s 0
  | S754_finite s m e => fixed2 s (hundredths m e)
  end.

(** [strings.ReplaceAll(s, old, new)] for a non-empty [old]: the
    non-overlapping occurrences of [old] are replaced from left to right.
    [skip] counts the bytes of a matched occurrence still to be dropped. *)
Fixpoint replace_from (old new : string) (skip : nat) (s : string) : string :=
  match s with
  | EmptyString => EmptyString
  | String c s' =>
      match skip with
      | S k => replace_from old new k s'
      | O =>
          if String.prefix old s
          then new ++ replace_from old new (String.length old - 1) s'
          else String c (replace_from old new O s')
      end
  end.

Definition ReplaceAll (s old new : string) : string :=
  replace_from old new O s.

(** The index set of [for i := lo; i < lo+n; i++]. *)
Definition int_range (lo : Z) (n : Z) : list Z :=
  map (fun k => lo + Z.of_nat k) (seq 0 (Z.to_nat n)).

(** A run of the program either returns or panics. *)
Inductive outcome (A : Type) : Type :=
| Returns (a : A)
| Panics (msg : string).

Arguments Returns {A} a.
Arguments Panics {A} msg.

Definition bind {A B : Type} (o : outcome A) (k : A -> outcome B) : outcome B :=
  match o with
  | Returns a => k a
  | Panics msg => Panics msg
  end.

End Go.

Import Go.

Notation "x <- o ;; k" := (bind o (fun x => k))
  (at level 61, o at next level, right associativity).

(** ** The data model *)

(** The records that [encoding/xml] fills in from the source document. *)
Record Rect : Type := {
  Rect_X : float;
  Rect_Y : float;
  Rect_Width : float;
  Rect_Height : float;
  Rect_Stroke : string
}.

Record Text : Type := {
  Text_X : float;
  Text_Y : float;
  Text_Content : string;
  Text_Font : string;
  Text_Size : float
}.

Record Path : Type := {
  Path_D : string
}.

Record Stop : Type := {
  Stop_Offset : string;
  Stop_Color : string
}.

Record Gradient : Type := {
  Gradient_ID : string;
  Gradient_X1 : float;
  Gradient_Y1 : float;
  Gradient_X2 : float;
  Gradient_Y2 : float;
  Gradient_Stops : list Stop
}.

Record SVG : Type := {
  SVG_Width : string;
  SVG_Height : string;
  SVG_Rects : list Rect;
  SVG_Texts : list Text;
  SVG_Paths : list Path;
  SVG_Gradients : list Gradient
}.

(** The document under construction. *)
Record PDF : Type := {
  pages : list string;
  pageCount : Z;
  content : list string;
  pageWidth : float;
  pageHeight : float;
  scaleX : float;
  scaleY : float;
  currentX : float;
  currentY : float;
  columnWidth : float;
  rowHeight : float;
  maxColumns : Z;
  maxRows : Z;
  font : string;
  fontSize : float
}.

(** Field updates, one per group of fields that the methods assign. *)
Definition set_content (p : PDF) (c : list string) : PDF :=
  {| pages := pages p; pageCount := pageCount p; content := c;
     pageWidth := pageWidth p; pageHeight := pageHeight p;
     scaleX := scaleX p; scaleY := scaleY p;
     currentX := currentX p; currentY := currentY p;
     columnWidth := columnWidth p; rowHeight := rowHeight p;
     maxColumns := maxColumns p; maxRows := maxRows p;
     font := font p; fontSize := fontSize p |}.

Definition set_pages (p : PDF) (n : Z) (ps : list string) : PDF :=
  {| pages := ps; pageCount := n; content := content p;
     pageWidth := pageWidth p; pageHeight := pageHeight p;
     scaleX := scaleX p; scaleY := scaleY p;
     currentX := currentX p; currentY := currentY p;
     columnWidth := columnWidth p; rowHeight := rowHeight p;
     maxColumns := maxColumns p; maxRows := maxRows p;
     font := font p; fontSize := fontSize p |}.

Definition set_scale (p : PDF) (sx sy : float) : PDF :=
  {| pages := pages p; pageCount := pageCount p; content := content p;
     pageWidth := pageWidth p; pageHeight := pageHeight p;
     scaleX := sx; scaleY := sy;
     currentX := currentX p; currentY := currentY p;
     columnWidth := columnWidth p; rowHeight := rowHeight p;
     maxColumns := maxColumns p; maxRows := maxRows p;
     font := font p; fontSize := fontSize p |}.

Definition set_cursor (p : PDF) (x y : float) : PDF :=
  {| pages := pages p; pageCount := pageCount p; content := content p;
     pageWidth := pageWidth p; pageHeight := pageHeight p;
     scaleX := scaleX p; scaleY := scaleY p;
     currentX := x; currentY := y;
     columnWidth := columnWidth p; rowHeight := rowHeight p;
     maxColumns := maxColumns p; maxRows := maxRows p;
     font := font p; fontSize := fontSize p |}.

(** ** The methods of [PDF] *)

Definition NewPDF (columns rows : Z) (font : string) (fontSize : float) : PDF :=
  {| pages := []; pageCount := 0; content := [];
     pageWidth := 595; pageHeight := 842;
     scaleX := 0; scaleY := 0;
     currentX := 0; currentY := 0;
     columnWidth := 150; rowHeight := 50;
     maxColumns := columns; maxRows := rows;
     font := font; fontSize := fontSize |}.

Definition AddRow (p : PDF) : PDF :=
  set_cursor p 0%float (currentY p + rowHeight p)%float.

Definition AddColumn (p : PDF) : PDF :=
  let p := set_cursor p (currentX p + columnWidth p)%float (currentY p) in
  if (pageWidth p <? currentX p + columnWidth p)%float then AddRow p else p.

Definition ApplyTransformation (x y : float) (transform : string)
  : float * float :=
  if String.eqb transform "rotate" then (y, (595 - x)%float) else (x, y).

(** [gradient.Stops[0]] panics on an empty slice; the colour read there is
    not used afterwards. *)
Definition RenderGradient (p : PDF) (gradient : Gradient) (x y w h : float)
  : outcome PDF :=
  match Gradient_Stops gradient with
  | [] => Panics "runtime error: index out of range [0] with length 0"
  | stop0 :: _ =>
      let gradientColor := Stop_Color stop0 in
      Returns (set_content p (content p ++
        [ Sprintf_2f x ++ " " ++ Sprintf_2f y ++ " " ++
          Sprintf_2f w ++ " " ++ Sprintf_2f h ++ " re";
          "0 0 1 RG";
          "S" ]))
  end.

(** Rocq's string literals have no backslash escapes: the one-byte string that
    Go writes with two backslashes is written with one here. *)
Definition escapeText (text : string) : string :=
  let text := ReplaceAll text "\" "\\" in
  let text := ReplaceAll text "(" "\(" in
  let text := ReplaceAll text ")" "\)" in
  text.

Definition newline : string := String (ascii_of_nat 10) EmptyString.

Definition AddTextWithUnicode (p : PDF) (x y : float) (text : string) : PDF :=
  let escapedText := escapeText text in
  let stream :=
    [ "BT";
      "/F1 " ++ Sprintf_2f (fontSize p) ++ " Tf";
      Sprintf_2f x ++ " " ++ Sprintf_2f y ++ " Td";
      "(" ++ escapedText ++ ") Tj";
      "ET" ] in
  set_content p (content p ++ [Join stream newline]).

Definition AddPage (p : PDF) : PDF :=
  let n := int64 (pageCount p + 1) in
  let page := "Page " ++ Itoa n in
  let p := set_pages p n (pages p ++ [page]) in
  set_content p (content p ++ [""]).

(** ** Conversion *)

(** What the program does to the outside world. *)
Inductive event : Type :=
| EvOpen (path : string)
| EvClose (path : string)
| EvWriteFile (path data : string)
| EvPrint (text : string).

(** What [os.Open] and [xml.Decoder.Decode] hand back for the source file:
    both are outside the package, their result is an input of the model.
    [cause] is the text of the error they return.  The tag of [XMLName]
    names the SVG namespace: a file whose root element is not in it does
    not decode. *)
Inductive source : Type :=
| OpenFails (cause : string)
| DecodeFails (cause : string)
| Decoded (svgData : SVG).

Definition nonempty (s : string) : bool :=
  match s with
  | EmptyString => false
  | String _ _ => true
  end.

(** The seven operator lines of one rectangle. *)
Definition rect_lines (p : PDF) (rect : Rect) : list string :=
  let x := (Rect_X rect * scaleX p)%float in
  let y := (pageHeight p - Rect_Y rect * scaleY p)%float in
  let w := (Rect_Width rect * scaleX p)%float in
  let h := (Rect_Height rect * scaleY p)%float in
  [ Sprintf_2f x ++ " " ++ Sprintf_2f y ++ " m";
    Sprintf_2f (x + w) ++ " " ++ Sprintf_2f y ++ " l";
    Sprintf_2f (x + w) ++ " " ++ Sprintf_2f (y - h) ++ " l";
    Sprintf_2f x ++ " " ++ Sprintf_2f (y - h) ++ " l";
    "h";
    "0 0 0 RG";
    "S" ].

Section Convert.

(** [strconv.ParseFloat(s, 64)]: the value and the error, if any.  The
    function belongs to Go's library and is a parameter here. *)
Variable ParseFloat : string -> float * option string.

(** [for _, gradient := range svgData.Gradients]. *)
Fixpoint gradients_loop (p : PDF) (gs : list Gradient) : outcome PDF :=
  match gs with
  | [] => Returns p
  | gradient :: gs' =>
      p' <- RenderGradient p gradient 100 100 200 50 ;;
      gradients_loop p' gs'
  end.

(** [for _, rect := range svgData.Rects], with the local [stream]. *)
Fixpoint rects_loop (p : PDF) (stream : list string) (rs : list Rect)
  : PDF * list string :=
  match rs with
  | [] => (p, stream)
  | rect :: rs' =>
      let p := AddColumn p in
      rects_loop p (stream ++ rect_lines p rect)%list rs'
  end.

(** [for _, text := range svgData.Texts]. *)
Fixpoint texts_loop (p : PDF) (ts : list Text) : PDF :=
  match ts with
  | [] => p
  | text :: ts' =>
      let p := AddColumn p in
      let x := (Text_X text * scaleX p)%float in
      let y := (pageHeight p - Text_Y text * scaleY p)%float in
      let '(x, y) := ApplyTransformation x y "rotate" in
      texts_loop (AddTextWithUnicode p x y (Text_Content text)) ts'
  end.

(** The part of [ConvertSVGToPDF] after a successful decode. *)
Definition convert_decoded (p : PDF) (svgData : SVG) : outcome PDF :=
  let '(svgWidth, svgHeight) :=
    if nonempty (SVG_Width svgData) && nonempty (SVG_Height svgData)
    then (fst (ParseFloat (SVG_Width svgData)),
          fst (ParseFloat (SVG_Height svgData)))
    else (400%float, 150%float) in
  let p := set_scale p (pageWidth p / svgWidth)%float
                       (pageHeight p / svgHeight)%float in
  let p := AddPage p in
  p <- gradients_loop p (SVG_Gradients svgData) ;;
  let '(p, stream) := rects_loop p [] (SVG_Rects svgData) in
  let p := texts_loop p (SVG_Texts svgData) in
  Returns (set_content p (content p ++ [Join stream newline])).

(** [ConvertSVGToPDF]: the trace of system calls, and either a panic or the
    document together with the returned error ([None] is [nil]).  The
    deferred [Close] runs on every exit once the file is open. *)
Definition ConvertSVGToPDF (p : PDF) (svgFilePath : string) (src : source)
  : list event * outcome (PDF * option string) :=
  match src with
  | OpenFails cause =>
      ([EvOpen svgFilePath],
       Returns (p, Some ("error opening SVG file: " ++ cause)))
  | DecodeFails cause =>
      ([EvOpen svgFilePath; EvClose svgFilePath],
       Returns (p, Some ("error decoding SVG: " ++ cause)))
  | Decoded svgData =>
      ([EvOpen svgFilePath; EvClose svgFilePath],
       p' <- convert_decoded p svgData ;; Returns (p', None))
  end.

End Convert.

(** ** Serialization *)

(** The second header line: a percent sign and the four characters written in
    the source file, eight bytes in UTF-8. *)
Definition binary_marker : string :=
  string_of_list_ascii
    (map ascii_of_nat [37; 195; 162; 195; 163; 195; 143; 195; 147]%nat).

(** The lines appended before the first loop of [Save]. *)
Definition header_lines : list string :=
  [ "%PDF-1.4"; binary_marker ].

Definition catalog_lines : list string :=
  [ "1 0 obj"; "<<"; "/Type /Catalog"; "/Pages 2 0 R"; ">>"; "endobj" ].

Definition pages_open_lines (p : PDF) : list string :=
  [ "2 0 obj"; "<<"; "/Type /Pages"; "/Count " ++ Itoa (pageCount p);
    "/Kids [" ].

(** [for i := 0; i < p.pageCount; i++] appending one reference per page. *)
Definition kids_lines (p : PDF) : list string :=
  map (fun i => Itoa (int64 (3 + int64 (i * 2))) ++ " 0 R")
      (int_range 0 (pageCount p)).

Definition pages_close_lines : list string :=
  [ "]"; ">>"; "endobj" ].

Definition font_lines : list string :=
  [ "3 0 obj"; "<<"; "/Type /Font"; "/Subtype /Type1";
    "/BaseFont /Helvetica"; "/Name /F1"; ">>"; "endobj" ].

Definition page_lines (p : PDF) (i : Z) : list string :=
  [ Itoa (int64 (4 + int64 (i * 2))) ++ " 0 obj";
    "<<";
    "/Type /Page";
    "/Parent 2 0 R";
    "/MediaBox [0 0 " ++ Sprintf_2f (pageWidth p) ++ " " ++
      Sprintf_2f (pageHeight p) ++ "]";
    "/Resources <<";
    "/Font <<";
    "/F1 3 0 R";
    ">>";
    ">>";
    "/Contents " ++ Itoa (int64 (5 + int64 (i * 2))) ++ " 0 R";
    ">>";
    "endobj" ].

Definition stream_lines (i : Z) (contentStream : string) : list string :=
  [ Itoa (int64 (5 + int64 (i * 2))) ++ " 0 obj";
    "<<";
    "/Length " ++ Itoa (len contentStream);
    ">>";
    "stream";
    contentStream;
    "endstream";
    "endobj" ].

(** The second loop of [Save]; [p.content[i]] panics past the end. *)
Fixpoint objects_loop (p : PDF) (pdfContent : list string) (ixs : list Z)
  : outcome (list string) :=
  match ixs with
  | [] => Returns pdfContent
  | i :: ixs' =>
      let pdfContent := (pdfContent ++ page_lines p i)%list in
      match nth_error (content p) (Z.to_nat i) with
      | None => Panics "runtime error: index out of range"
      | Some contentStream =>
          objects_loop p (pdfContent ++ stream_lines i contentStream)%list ixs'
      end
  end.

(** [pdfContent] as it stands when the cross-reference table is computed. *)
Definition Save_pdfContent (p : PDF) : outcome (list string) :=
  let pdfContent := header_lines in
  let pdfContent := (pdfContent ++ catalog_lines)%list in
  let pdfContent := (pdfContent ++ pages_open_lines p)%list in
  let pdfContent := (pdfContent ++ kids_lines p)%list in
  let pdfContent := (pdfContent ++ pages_close_lines)%list in
  let pdfContent := (pdfContent ++ font_lines)%list in
  objects_loop p pdfContent (int_range 0 (pageCount p)).

(** The third loop: [for i := 1; i <= 4+p.pageCount*2; i++], carrying
    [xref] and [xrefOffset].  [pdfContent[i:i+1]] is the one line of index
    [i]; the slice expression panics past the end. *)
Fixpoint xref_loop (pdfContent : list string) (xref : list string)
  (xrefOffset : Z) (ixs : list Z) : outcome (list string * Z) :=
  match ixs with
  | [] => Returns (xref, xrefOffset)
  | i :: ixs' =>
      let entry := Sprintf_010d xrefOffset ++ " 00000 n " in
      let xref := (xref ++ [entry])%list in
      match nth_error pdfContent (Z.to_nat i) with
      | None => Panics "runtime error: slice bounds out of range"
      | Some line =>
          let section := Join [line] newline ++ newline in
          xref_loop pdfContent xref (int64 (xrefOffset + len section)) ixs'
      end
  end.

Definition xref_count (p : PDF) : Z :=
  int64 (int64 (5 + int64 (pageCount p * 2)) + 1).

Definition xref_head (p : PDF) : list string :=
  [ "xref"; "0 " ++ Itoa (xref_count p); "0000000000 65535 f " ].

Definition trailer_lines (p : PDF) (xrefOffset : Z) : list string :=
  [ "trailer"; "<<"; "/Size " ++ Itoa (xref_count p); "/Root 1 0 R"; ">>";
    "startxref"; Itoa xrefOffset; "%%EOF" ].

(** The three parts that [Save] joins: the objects, the cross-reference
    table and the trailer. *)
Definition Save_parts (p : PDF)
  : outcome (list string * list string * list string) :=
  pdfContent <- Save_pdfContent p ;;
  let xrefOffset := 0 in
  let xrefOffset :=
    int64 (xrefOffset + int64 (len (Join (firstn 2 pdfContent) newline) + 2)) in
  r <- xref_loop pdfContent (xref_head p) xrefOffset
         (int_range 1 (int64 (4 + int64 (pageCount p * 2)))) ;;
  let '(xref, xrefOffset) := r in
  Returns (pdfContent, xref, trailer_lines p xrefOffset).

Definition finalContent (parts : list string * list string * list string)
  : string :=
  let '(pdfContent, xref, trailer) := parts in
  Join pdfContent newline ++ newline ++
  Join xref newline ++ newline ++
  Join trailer newline.

(** [Save]: [written] is what [os.WriteFile] returns, [None] for success or
    the text of its error. *)
Definition Save (p : PDF) (filePath : string) (written : option string)
  : list event * outcome (option string) :=
  match Save_parts p with
  | Panics msg => ([], Panics msg)
  | Returns parts =>
      let data := finalContent parts in
      match written with
      | Some cause =>
          ([EvWriteFile filePath data],
           Returns (Some ("error writing PDF: " ++ cause)))
      | None =>
          ([EvWriteFile filePath data;
            EvPrint ("Successfully generated " ++ filePath ++ newline)],
           Returns None)
      end
  end.

(** ** Reading the output back *)

(** The readers below recover, from the bytes that [Save] writes, the parts
    of the file that the properties speak about. *)

Definition is_newline (c : ascii) : bool := Ascii.eqb c (ascii_of_nat 10).

Fixpoint split_lines (data : string) : list string :=
  match data with
  | EmptyString => [EmptyString]
  | String c rest =>
      if is_newline c then EmptyString :: split_lines rest
      else match split_lines rest with
           | [] => [String c EmptyString]
           | l :: ls => String c l :: ls
           end
  end.

(** The lines after the first line equal to [marker]. *)
Fixpoint drop_through (marker : string) (ls : list string) : list string :=
  match ls with
  | [] => []
  | l :: ls' => if String.eqb l marker then ls' else drop_through marker ls'
  end.

(** The lines before the first line equal to [marker]. *)
Fixpoint take_until (marker : string) (ls : list string) : list string :=
  match ls with
  | [] => []
  | l :: ls' => if String.eqb l marker then [] else l :: take_until marker ls'
  end.

(** The byte offset, counted from [off], of the first line equal to
    [target]. *)
Fixpoint line_offset (target : string) (ls : list string) (off : Z)
  : option Z :=
  match ls with
  | [] => None
  | l :: ls' =>
      if String.eqb l target then Some off
      else line_offset target ls' (off + len l + 1)
  end.

(** The header lines [N 0 obj] of the objects whose dictionary has a first
    entry that passes [test]. *)
Fixpoint objects_with (test : string -> bool) (ls : list string)
  : list string :=
  match ls with
  | [] => []
  | h :: ls' =>
      match ls' with
      | open :: e :: _ =>
          if String.eqb open "<<" && test e
          then h :: objects_with test ls'
          else objects_with test ls'
      | _ => []
      end
  end.

Definition Kids_array (data : string) : list string :=
  take_until "]" (drop_through "/Kids [" (split_lines data)).

Definition Page_objects (data : string) : list string :=
  objects_with (String.eqb "/Type /Page") (split_lines data).

Definition Stream_objects (data : string) : list string :=
  objects_with (String.prefix "/Length ") (split_lines data).

(** Where the definition of object [n] begins in the file. *)
Definition object_offset (data : string) (n : Z) : option Z :=
  line_offset (Itoa n ++ " 0 obj") (split_lines data) 0.

Definition xref_keyword_offset (data : string) : option Z :=
  line_offset "xref" (split_lines data) 0.

(** The cross-reference section: its subsection header and its entries,
    the free-list head first. *)
Definition xref_section (data : string) : list string :=
  take_until "trailer" (drop_through "xref" (split_lines data)).

Definition xref_header (data : string) : option string :=
  hd_error (xref_section data).

Definition xref_entries (data : string) : list string :=
  tl (xref_section data).

Definition line_with (prefix : string) (ls : list string) : option string :=
  find (String.prefix prefix) ls.

Definition trailer_Size (data : string) : option string :=
  line_with "/Size " (drop_through "trailer" (split_lines data)).

Definition startxref_value (data : string) : option string :=
  hd_error (drop_through "startxref" (split_lines data)).

(** The dictionary and the body of the stream object [n]. *)
Definition stream_Length (data : string) (n : Z) : option string :=
  line_with "/Length "
    (take_until "stream"
       (drop_through (Itoa n ++ " 0 obj") (split_lines data))).

Definition stream_body (data : string) (n : Z) : string :=
  Join (take_until "endstream"
          (drop_through "stream"
             (drop_through (Itoa n ++ " 0 obj") (split_lines data))))
       newline.

(** The bytes that a successful [Save] writes. *)
Definition Save_data (p : PDF) : option string :=
  match Save_parts p with
  | Returns parts => Some (finalContent parts)
  | Panics _ => None
  end.

(** ** Sample documents *)

Definition digit_value (c : ascii) : option Z :=
  let n := Z.of_nat (nat_of_ascii c) in
  if (48 <=? n) && (n <=? 57) then Some (n - 48) else None.

Fixpoint digits_value (acc : Z) (s : string) : option Z :=
  match s with
  | EmptyString => Some acc
  | String c s' =>
      match digit_value c with
      | Some d => digits_value (acc * 10 + d) s'
      | None => None
      end
  end.

(** An instance of the parameter [ParseFloat] for the sample documents.  It
    agrees with [strconv.ParseFloat] on the strings of decimal digits that
    denote a number below 2^53, which binary64 holds exactly, and on the
    strings that are not numbers at all, for which Go returns 0 and a syntax
    error.  The samples use it on no other string. *)
Definition ParseFloat_digits (s : string) : float * option string :=
  match (if nonempty s then digits_value 0 s else None) with
  | Some z =>
      if z <? 2 ^ 53 then (of_uint63 (Uint63.of_Z z), None)
      else (0%float, Some "strconv.ParseFloat: unsupported by the sample parser")
  | None => (0%float, Some "strconv.ParseFloat: invalid syntax")
  end.

Definition sample_rect : Rect :=
  {| Rect_X := 0; Rect_Y := 0; Rect_Width := 100; Rect_Height := 50;
     Rect_Stroke := "" |}.

Definition sample_text : Text :=
  {| Text_X := 10; Text_Y := 10; Text_Content := "Hi(there)";
     Text_Font := ""; Text_Size := 0 |}.

Definition sample_gradient : Gradient :=
  {| Gradient_ID := "g"; Gradient_X1 := 0; Gradient_Y1 := 0;
     Gradient_X2 := 1; Gradient_Y2 := 0;
     Gradient_Stops := [ {| Stop_Offset := "0%"; Stop_Color := "red" |} ] |}.

(** The end-to-end scenario: a 400 by 150 drawing with one rectangle and one
    text. *)
Definition sample_svg : SVG :=
  {| SVG_Width := "400"; SVG_Height := "150";
     SVG_Rects := [sample_rect]; SVG_Texts := [sample_text];
     SVG_Paths := []; SVG_Gradients := [] |}.

(** The same drawing with a gradient, and one whose gradient has no stop. *)
Definition gradient_svg : SVG :=
  {| SVG_Width := "400"; SVG_Height := "150";
     SVG_Rects := [sample_rect]; SVG_Texts := [sample_text];
     SVG_Paths := []; SVG_Gradients := [sample_gradient] |}.

Definition stopless_gradient : Gradient :=
  {| Gradient_ID := "empty"; Gradient_X1 := 0; Gradient_Y1 := 0;
     Gradient_X2 := 1; Gradient_Y2 := 0; Gradient_Stops := [] |}.

Definition stopless_svg : SVG :=
  {| SVG_Width := "400"; SVG_Height := "150";
     SVG_Rects := [sample_rect]; SVG_Texts := [sample_text];
     SVG_Paths := []; SVG_Gradients := [sample_gradient; stopless_gradient] |}.

(** A drawing that declares its width only, and one with no element. *)
Definition width_only_svg : SVG :=
  {| SVG_Width := "800"; SVG_Height := "";
     SVG_Rects := [sample_rect]; SVG_Texts := [sample_text];
     SVG_Paths := []; SVG_Gradients := [] |}.

Definition empty_svg : SVG :=
  {| SVG_Width := ""; SVG_Height := "";
     SVG_Rects := []; SVG_Texts := [];
     SVG_Paths := []; SVG_Gradients := [] |}.

(** A drawing whose declared width is not a number. *)
Definition nonnumeric_svg : SVG :=
  {| SVG_Width := "wide"; SVG_Height := "150";
     SVG_Rects := [sample_rect]; SVG_Texts := [sample_text];
     SVG_Paths := []; SVG_Gradients := [] |}.

Definition fresh : PDF := NewPDF 3 3 "Helvetica" 12.

(** The document after [n] conversions of [svg], if none panics. *)
Fixpoint converted (n : nat) (svg : SVG) : option PDF :=
  match n with
  | O => Some fresh
  | S k =>
      match converted k svg with
      | Some p =>
          match convert_decoded ParseFloat_digits p svg with
          | Returns p' => Some p'
          | Panics _ => None
          end
      | None => None
      end
  end.

Definition saved (n : nat) (svg : SVG) : option string :=
  match converted n svg with
  | Some p => Save_data p
  | None => None
  end.


(** The document of the end-to-end scenario: one conversion of the sample
    drawing into a fresh document; and the document after two. *)
Definition sample_doc : PDF :=
  match converted 1 sample_svg with
  | Some p => p
  | None => fresh
  end.

Definition two_page_doc : PDF :=
  match converted 2 sample_svg with
  | Some p => p
  | None => fresh
  end.

(** ** Specification-side definitions *)

(** The escaping of text stated character by character. *)
Definition backslash : ascii := ascii_of_nat 92.
Definition lparen : ascii := ascii_of_nat 40.
Definition rparen : ascii := ascii_of_nat 41.

Definition is_special (c : ascii) : bool :=
  Ascii.eqb c backslash || Ascii.eqb c lparen || Ascii.eqb c rparen.

Fixpoint escape_each (s : string) : string :=
  match s with
  | EmptyString => EmptyString
  | String c s' =>
      if is_special c then String backslash (String c (escape_each s'))
      else String c (escape_each s')
  end.

Fixpoint has_special (s : string) : bool :=
  match s with
  | EmptyString => false
  | String c s' => is_special c || has_special s'
  end.

(** The parentheses of [s] that no backslash escapes, read as a PDF reader
    does: a backslash takes the byte after it.  [escaped] tells whether the
    byte before was such a backslash. *)
Fixpoint unescaped_parens (escaped : bool) (s : string) : nat :=
  match s with
  | EmptyString => O
  | String c s' =>
      if escaped then unescaped_parens false s'
      else if Ascii.eqb c backslash then unescaped_parens true s'
      else if Ascii.eqb c lparen || Ascii.eqb c rparen
           then S (unescaped_parens false s')
           else unescaped_parens false s'
  end.

(** What a PDF reader makes of the body of a literal string. *)
Fixpoint unescape (escaped : bool) (s : string) : string :=
  match s with
  | EmptyString => EmptyString
  | String c s' =>
      if escaped then String c (unescape false s')
      else if Ascii.eqb c backslash then unescape true s'
      else String c (unescape false s')
  end.

(** One occurrence of the byte [a] replaced by [new], everywhere. *)
Fixpoint subst_byte (a : ascii) (new : string) (s : string) : string :=
  match s with
  | EmptyString => EmptyString
  | String c s' =>
      if Ascii.eqb a c then new ++ subst_byte a new s'
      else String c (subst_byte a new s')
  end.

(** The three passes of [escapeText], each on single bytes. *)
Definition three_passes (s : string) : string :=
  subst_byte rparen (String backslash (String rparen EmptyString))
    (subst_byte lparen (String backslash (String lparen EmptyString))
       (subst_byte backslash (String backslash (String backslash EmptyString))
          s)).

(** The fields that only [NewPDF], [AddPage] and the scaling step of
    [ConvertSVGToPDF] assign. *)
Definition frame (p : PDF) :=
  (pages p, pageCount p, (pageWidth p, pageHeight p), (scaleX p, scaleY p),
   (columnWidth p, rowHeight p), (maxColumns p, maxRows p), (font p, fontSize p)).

(** The three lines that every gradient contributes. *)
Definition gradient_lines : list string :=
  [ "100.00 100.00 200.00 50.00 re"; "0 0 1 RG"; "S" ].

(** The entry that one text contributes to the content. *)
Definition text_entry (p : PDF) (text : Text) : string :=
  let x := (Text_X text * scaleX p)%float in
  let y := (pageHeight p - Text_Y text * scaleY p)%float in
  Join [ "BT";
         "/F1 " ++ Sprintf_2f (fontSize p) ++ " Tf";
         Sprintf_2f y ++ " " ++ Sprintf_2f (595 - x) ++ " Td";
         "(" ++ escapeText (Text_Content text) ++ ") Tj";
         "ET" ] newline.

(** The entry that the rectangles contribute together. *)
Definition rects_entry (p : PDF) (rs : list Rect) : string :=
  Join (flat_map (rect_lines p) rs) newline.

(** [a] stands at an earlier index of [c] than [b]. *)
Definition precedes (a b : string) (c : list string) : Prop :=
  exists i j : nat,
    nth_error c i = Some a /\ nth_error c j = Some b /\ (i < j)%nat.

(** The dimensions that the scale factors are computed from. *)
Definition svg_size (ParseFloat : string -> float * option string)
  (svgData : SVG) : float * float :=
  if nonempty (SVG_Width svgData) && nonempty (SVG_Height svgData)
  then (fst (ParseFloat (SVG_Width svgData)),
        fst (ParseFloat (SVG_Height svgData)))
  else (400%float, 150%float).

(** The name that [AddPage] gives to page [n]. *)
Definition page_name (n : Z) : string := "Page " ++ Itoa n.

(** The order that the specification gives: the entry of the rectangles
    before the entry of every text. *)
Definition rectangles_before_text
  (ParseFloat : string -> float * option string) (p : PDF) (svgData : SVG)
  : Prop :=
  forall p', convert_decoded ParseFloat p svgData = Returns p' ->
  forall text, In text (SVG_Texts svgData) ->
  precedes (rects_entry p' (SVG_Rects svgData)) (text_entry p' text)
           (content p').

(** The lines of the two objects of page [i], given the content list. *)
Definition object_lines (p : PDF) (i : Z) : list string :=
  (page_lines p i ++
   stream_lines i (nth (Z.to_nat i) (content p) EmptyString))%list.

(** The lines in front of the page objects. *)
Definition preamble_lines (p : PDF) : list string :=
  (header_lines ++ catalog_lines ++ pages_open_lines p ++ kids_lines p ++
   pages_close_lines ++ font_lines)%list.

(** The documents that a caller of the package can build by calls that
    return: the fields of [PDF] are not exported, only the constructor and
    the methods reach them. *)
Inductive built : PDF -> Prop :=
| built_NewPDF (columns rows : Z) (fnt : string) (size : float) :
    built (NewPDF columns rows fnt size)
| built_AddPage (p : PDF) :
    built p -> built (AddPage p)
| built_AddRow (p : PDF) :
    built p -> built (AddRow p)
| built_AddColumn (p : PDF) :
    built p -> built (AddColumn p)
| built_AddTextWithUnicode (p : PDF) (x y : float) (text : string) :
    built p -> built (AddTextWithUnicode p x y text)
| built_RenderGradient (p p' : PDF) (g : Gradient) (x y w h : float) :
    built p -> RenderGradient p g x y w h = Returns p' -> built p'
| built_ConvertSVGToPDF (ParseFloat : string -> float * option string)
    (p p' : PDF) (path : string) (src : source) (err : option string) :
    built p ->
    snd (ConvertSVGToPDF ParseFloat p path src) = Returns (p', err) ->
    built p'.

(** What holds of every such document. *)
Definition well_formed (p : PDF) : Prop :=
  pageCount p = int64 (Z.of_nat (length (pages p))) /\
  (length (pages p) <= length (content p))%nat /\
  pageWidth p = 595%float /\
  pageHeight p = 842%float.

(** The file writes of a trace. *)
Fixpoint writes (tr : list event) : list (string * string) :=
  match tr with
  | [] => []
  | EvWriteFile path data :: tr' => (path, data) :: writes tr'
  | _ :: tr' => writes tr'
  end.

(** ** Definitions for the further properties *)

(** The fields that the layout tracker reads and writes. *)
Definition layout (p : PDF) :=
  (currentX p, currentY p, columnWidth p, rowHeight p, pageWidth p).

(** [AddColumn] on those fields alone. *)
Definition layout_step (l : float * float * float * float * float) :=
  let '(x, y, cw, rh, pw) := l in
  if (pw <? (x + cw) + cw)%float
  then (0%float, (y + rh)%float, cw, rh, pw)
  else ((x + cw)%float, y, cw, rh, pw).

(** The cursor of a document with the sizes of [NewPDF] stands in one of the
    two columns that fit the page, or at the start of a row. *)
Definition cursor_in_grid (p : PDF) : Prop :=
  columnWidth p = 150%float /\ rowHeight p = 50%float /\
  pageWidth p = 595%float /\
  (currentX p = 0%float \/ currentX p = 150%float \/ currentX p = 300%float).

(** What the conversion reads of a rectangle, a text and a gradient. *)
Definition rect_geometry (rect : Rect) :=
  (Rect_X rect, Rect_Y rect, Rect_Width rect, Rect_Height rect).

Definition text_shown (text : Text) :=
  (Text_X text, Text_Y text, Text_Content text).

Definition has_stop (gradient : Gradient) : bool :=
  match Gradient_Stops gradient with
  | [] => false
  | _ :: _ => true
  end.



(** A reader of PDF literal strings (ISO 32000-1, 7.3.4.2).  Inside the
    parentheses a backslash starts an escape: the letters [n r t b f] stand
    for LF, CR, HT, BS and FF, a parenthesis or backslash stands for itself,
    one to three octal digits give a byte (overflow ignored), an end-of-line
    marker is dropped with the backslash, and before any other byte the
    backslash is ignored.  Parentheses that are not escaped nest, and an
    end-of-line marker that is not escaped, CR, LF or CR LF, is read as one
    LF.  The result is the decoded string and what follows the literal. *)
Definition CR : ascii := ascii_of_nat 13.
Definition LF : ascii := ascii_of_nat 10.

Inductive literal_state : Type :=
| LitPlain
| LitEscape
| LitAfterCR
| LitOctal (more : bool) (value : nat).

Definition escape_letter (c : ascii) : option ascii :=
  if Ascii.eqb c (ascii_of_nat 110) then Some LF
  else if Ascii.eqb c (ascii_of_nat 114) then Some CR
  else if Ascii.eqb c (ascii_of_nat 116) then Some (ascii_of_nat 9)
  else if Ascii.eqb c (ascii_of_nat 98) then Some (ascii_of_nat 8)
  else if Ascii.eqb c (ascii_of_nat 102) then Some (ascii_of_nat 12)
  else if Ascii.eqb c lparen then Some lparen
  else if Ascii.eqb c rparen then Some rparen
  else if Ascii.eqb c backslash then Some backslash
  else None.

Definition octal_digit (c : ascii) : option nat :=
  let n := nat_of_ascii c in
  if (48 <=? n)%nat && (n <=? 55)%nat then Some (n - 48)%nat else None.

Definition emit (c : ascii) (r : option (string * string))
  : option (string * string) :=
  match r with
  | Some (text, rest) => Some (String c text, rest)
  | None => None
  end.

Fixpoint read_literal_from (depth : nat) (st : literal_state) (s : string)
  {struct s} : option (string * string) :=
  match s with
  | EmptyString => None
  | String c s' =>
      let plain :=
        if Ascii.eqb c backslash then read_literal_from depth LitEscape s'
        else if Ascii.eqb c lparen
        then emit c (read_literal_from (S depth) LitPlain s')
        else if Ascii.eqb c rparen then
          match depth with
          | O => Some (EmptyString, s')
          | S d => emit c (read_literal_from d LitPlain s')
          end
        else if Ascii.eqb c CR
        then emit LF (read_literal_from depth LitAfterCR s')
        else emit c (read_literal_from depth LitPlain s') in
      match st with
      | LitPlain => plain
      | LitAfterCR =>
          if Ascii.eqb c LF then read_literal_from depth LitPlain s'
          else plain
      | LitEscape =>
          match escape_letter c with
          | Some b => emit b (read_literal_from depth LitPlain s')
          | None =>
              match octal_digit c with
              | Some d => read_literal_from depth (LitOctal true d) s'
              | None =>
                  if Ascii.eqb c CR
                  then read_literal_from depth LitAfterCR s'
                  else if Ascii.eqb c LF
                  then read_literal_from depth LitPlain s'
                  else plain
              end
          end
      | LitOctal more v =>
          match octal_digit c with
          | Some d =>
              if more
              then read_literal_from depth (LitOctal false (v * 8 + d)) s'
              else emit (ascii_of_nat ((v * 8 + d) mod 256))
                        (read_literal_from depth LitPlain s')
          | None => emit (ascii_of_nat v) plain
          end
      end
  end.

Definition read_literal (s : string) : option (string * string) :=
  match s with
  | String c s' =>
      if Ascii.eqb c lparen then read_literal_from O LitPlain s' else None
  | EmptyString => None
  end.

(** The text with every end-of-line marker, CR or CR LF, turned into one LF;
    [after_cr] tells whether the byte before was a CR. *)
Fixpoint eol_as_LF (after_cr : bool) (s : string) : string :=
  match s with
  | EmptyString => EmptyString
  | String c s' =>
      if Ascii.eqb c CR then String LF (eol_as_LF true s')
      else if after_cr && Ascii.eqb c LF then eol_as_LF false s'
      else String c (eol_as_LF false s')
  end.

Fixpoint has_CR (s : string) : bool :=
  match s with
  | EmptyString => false
  | String c s' => Ascii.eqb c CR || has_CR s'
  end.

(** The number of bytes of [s] that [escapeText] escapes. *)
Fixpoint count_special (s : string) : nat :=
  match s with
  | EmptyString => O
  | String c s' =>
      if is_special c then S (count_special s') else count_special s'
  end.

(** The bytes that the lines [ls] take in a file, each with its newline. *)
Fixpoint bytes_of_lines (ls : list string) : Z :=
  match ls with
  | [] => 0
  | l :: ls' => len l + 1 + bytes_of_lines ls'
  end.

(** * Properties *)

Example Sprintf_2f_595 : Sprintf_2f 595%float = "595.00".
Proof. reflexivity. Qed.

Example Sprintf_2f_tie : Sprintf_2f 0.125%float = "0.12".
Proof. reflexivity. Qed.

Example Sprintf_2f_neg : Sprintf_2f (-1 / 1024)%float = "-0.00".
Proof. reflexivity. Qed.

Example Sprintf_2f_third : Sprintf_2f (2 / 3)%float = "0.67".
Proof. reflexivity. Qed.

Example Sprintf_2f_inf : Sprintf_2f (595 / 0)%float = "+Inf".
Proof. reflexivity. Qed.

Example Sprintf_010d_20 : Sprintf_010d 20 = "0000000020".
Proof. reflexivity. Qed.

Example ReplaceAll_ab : ReplaceAll "aXbXXc" "X" "yz" = "ayzbyzyzc".
Proof. reflexivity. Qed.

Example ReplaceAll_overlap : ReplaceAll "aaaa" "aa" "b" = "bb".
Proof. reflexivity. Qed.


(** ** Strings *)

Lemma string_app_assoc (s1 s2 s3 : string) :
  (s1 ++ s2) ++ s3 = s1 ++ (s2 ++ s3).
Proof. induction s1; simpl; congruence. Qed.

Lemma string_app_empty_r (s : string) : s ++ "" = s.
Proof. induction s; simpl; congruence. Qed.

Lemma string_length_app (s1 s2 : string) :
  String.length (s1 ++ s2) = (String.length s1 + String.length s2)%nat.
Proof. induction s1; simpl; congruence. Qed.

(** ** Escaping of text *)

Lemma ReplaceAll_byte (a : ascii) (new s : string) :
  ReplaceAll s (String a EmptyString) new = subst_byte a new s.
Proof.
  unfold ReplaceAll.
  induction s as [|c s IH]; simpl; [reflexivity|].
  destruct (ascii_dec a c) as [->|Hne].
  - rewrite Ascii.eqb_refl.
    assert (Hp : String.prefix EmptyString s = true) by (destruct s; reflexivity).
    now rewrite Hp, IH.
  - destruct (Ascii.eqb a c) eqn:E.
    + apply Ascii.eqb_eq in E. contradiction.
    + now rewrite IH.
Qed.

Lemma subst_byte_app (a : ascii) (new s1 s2 : string) :
  subst_byte a new (s1 ++ s2) = subst_byte a new s1 ++ subst_byte a new s2.
Proof.
  induction s1 as [|c s1 IH]; simpl; [reflexivity|].
  destruct (Ascii.eqb a c); rewrite IH; [|reflexivity].
  now rewrite string_app_assoc.
Qed.

Lemma escapeText_subst (s : string) :
  escapeText s =
  subst_byte rparen (String backslash (String rparen EmptyString))
    (subst_byte lparen (String backslash (String lparen EmptyString))
       (subst_byte backslash (String backslash (String backslash EmptyString))
          s)).
Proof.
  unfold escapeText.
  change "\" with (String backslash EmptyString) at 1.
  rewrite ReplaceAll_byte.
  change "(" with (String lparen EmptyString).
  rewrite ReplaceAll_byte.
  change ")" with (String rparen EmptyString).
  rewrite ReplaceAll_byte.
  reflexivity.
Qed.

(** The three passes together escape every byte once. *)
Lemma three_passes_app (s1 s2 : string) :
  three_passes (s1 ++ s2) = three_passes s1 ++ three_passes s2.
Proof. unfold three_passes. now rewrite !subst_byte_app. Qed.

Lemma three_passes_byte (c : ascii) :
  three_passes (String c EmptyString) = escape_each (String c EmptyString).
Proof.
  destruct c as [[] [] [] [] [] [] [] []]; vm_compute; reflexivity.
Qed.

Lemma escape_each_cons (c : ascii) (s : string) :
  escape_each (String c s) = escape_each (String c EmptyString) ++ escape_each s.
Proof. simpl. destruct (is_special c); reflexivity. Qed.

Lemma escapeText_each (s : string) : escapeText s = escape_each s.
Proof.
  rewrite escapeText_subst. fold (three_passes s).
  induction s as [|c s IH]; [reflexivity|].
  change (String c s) with (String c EmptyString ++ s) at 1.
  now rewrite three_passes_app, IH, three_passes_byte, <- escape_each_cons.
Qed.

Lemma escape_each_no_unescaped (s : string) :
  unescaped_parens false (escape_each s) = O.
Proof.
  induction s as [|c s IH]; simpl; [reflexivity|].
  destruct (is_special c) eqn:E; simpl.
  - exact IH.
  - unfold is_special in E.
    apply orb_false_elim in E as [E Er].
    apply orb_false_elim in E as [Eb El].
    now rewrite Eb, El, Er.
Qed.

Lemma escape_each_plain (s : string) :
  has_special s = false -> escape_each s = s.
Proof.
  induction s as [|c s IH]; simpl; [reflexivity|].
  intros H. apply orb_false_elim in H as [Hc Hs].
  now rewrite Hc, IH.
Qed.

Lemma unescape_escape_each (s : string) :
  unescape false (escape_each s) = s.
Proof.
  induction s as [|c s IH]; simpl; [reflexivity|].
  destruct (is_special c) eqn:E; simpl.
  - now rewrite IH.
  - unfold is_special in E.
    apply orb_false_elim in E as [E _].
    apply orb_false_elim in E as [Eb _].
    now rewrite Eb, IH.
Qed.

(** C8: [escapeText] replaces the backslash, then the opening and then the
    closing parenthesis, each by itself behind a backslash; the three passes
    amount to escaping every byte of the input once ([escape_each]) and touch
    no other byte.  The result has no parenthesis that is not escaped, a
    reader of the literal gets the input back, and a string with none of the
    three bytes is returned as it is. *)
Theorem escapeText_correct (s : string) :
  escapeText s = ReplaceAll (ReplaceAll (ReplaceAll s "\" "\\") "(" "\(") ")" "\)"
  /\ escapeText s = escape_each s
  /\ unescaped_parens false (escapeText s) = O
  /\ unescape false (escapeText s) = s
  /\ (has_special s = false -> escapeText s = s).
Proof.
  split; [reflexivity|].
  split; [apply escapeText_each|].
  rewrite escapeText_each.
  split; [apply escape_each_no_unescaped|].
  split; [apply unescape_escape_each|].
  apply escape_each_plain.
Qed.

Lemma escapeText_correct_witness :
  has_special "Hello, world" = false /\
  escapeText "Hello, world" = "Hello, world" /\
  escapeText "Hi(there)" = "Hi\(there\)" /\
  escapeText "a\b" = "a\\b".
Proof.
  split; [reflexivity|].
  split; [apply (escapeText_correct "Hello, world"); reflexivity|].
  split; reflexivity.
Defined.

(** ** The rotation *)

(** C6: for the name [rotate] the function returns [(y, pageWidth - x)], the
    page width being the one every document is created with; the origin goes
    to [(0, pageWidth)] and [(pageWidth, 0)] to the origin; every other name
    leaves the point unchanged.  The function takes no document and returns
    none: its result is a function of its three arguments only. *)
Theorem ApplyTransformation_correct
  (columns rows : Z) (fnt : string) (size : float) (x y : float) :
  let pw := pageWidth (NewPDF columns rows fnt size) in
  ApplyTransformation x y "rotate" = (y, (pw - x)%float)
  /\ ApplyTransformation 0 0 "rotate" = (0%float, pw)
  /\ ApplyTransformation pw 0 "rotate" = (0%float, 0%float)
  /\ (forall transform : string,
        transform <> "rotate" -> ApplyTransformation x y transform = (x, y)).
Proof.
  repeat split.
  intros transform Hne. unfold ApplyTransformation.
  destruct (String.eqb_spec transform "rotate") as [E|_]; [contradiction|].
  reflexivity.
Qed.

Lemma ApplyTransformation_correct_witness :
  "scale" <> "rotate" /\
  ApplyTransformation 3 4 "scale" = (3%float, 4%float) /\
  ApplyTransformation 3 4 "rotate" = (4%float, 592%float).
Proof.
  split; [discriminate|].
  split.
  - apply (ApplyTransformation_correct 3 3 "Helvetica" 12 3 4). discriminate.
  - apply (ApplyTransformation_correct 3 3 "Helvetica" 12 3 4).
Defined.

(** ** Failures of the source *)

Lemma writes_app (t1 t2 : list event) :
  writes (t1 ++ t2) = (writes t1 ++ writes t2)%list.
Proof.
  induction t1 as [|e t1 IH]; simpl; [reflexivity|].
  destruct e; simpl; now rewrite IH.
Qed.

Lemma ConvertSVGToPDF_no_write
  (ParseFloat : string -> float * option string)
  (p : PDF) (path : string) (src : source) :
  writes (fst (ConvertSVGToPDF ParseFloat p path src)) = [].
Proof. destruct src; reflexivity. Qed.

Lemma Save_writes_once (p : PDF) (path : string) (written : option string) :
  match Save_data p with
  | Some data =>
      writes (fst (Save p path written)) = [(path, data)] /\
      exists rest, fst (Save p path written) = EvWriteFile path data :: rest /\
                   writes rest = []
  | None =>
      fst (Save p path written) = [] /\
      exists msg, snd (Save p path written) = Panics msg
  end.
Proof.
  unfold Save_data, Save.
  destruct (Save_parts p) as [parts|msg].
  - destruct written as [cause|]; simpl; (split; [reflexivity|]);
      eexists; (split; [reflexivity|reflexivity]).
  - simpl. split; [reflexivity|]. now exists msg.
Qed.

(** C9: when the source cannot be opened or decoded, [ConvertSVGToPDF]
    returns an error that names the operation and ends with the cause, the
    document it returns is the one it was given, and it writes no file;
    conversion writes nothing on any input.  [Save] calls [WriteFile] once,
    with the whole content, as its first effect, and reports a failed write
    in the same way. *)
Theorem ConvertSVGToPDF_failure
  (ParseFloat : string -> float * option string)
  (p : PDF) (path cause : string) :
  (ConvertSVGToPDF ParseFloat p path (OpenFails cause)
     = ([EvOpen path],
        Returns (p, Some ("error opening SVG file: " ++ cause))))
  /\ (ConvertSVGToPDF ParseFloat p path (DecodeFails cause)
     = ([EvOpen path; EvClose path],
        Returns (p, Some ("error decoding SVG: " ++ cause))))
  /\ (forall src, writes (fst (ConvertSVGToPDF ParseFloat p path src)) = [])
  /\ (forall out data,
        Save_data p = Some data ->
        writes (fst (Save p out None)) = [(out, data)] /\
        snd (Save p out None) = Returns None /\
        writes (fst (Save p out (Some cause))) = [(out, data)] /\
        snd (Save p out (Some cause))
          = Returns (Some ("error writing PDF: " ++ cause))).
Proof.
  split; [reflexivity|].
  split; [reflexivity|].
  split; [intros src; apply ConvertSVGToPDF_no_write|].
  intros out data Hd.
  unfold Save_data in Hd. unfold Save.
  destruct (Save_parts p) as [parts|msg]; [|discriminate].
  injection Hd as <-. repeat split.
Qed.

(** ** The content that a conversion appends *)

Lemma frame_set_content (p : PDF) (c : list string) :
  frame (set_content p c) = frame p.
Proof. reflexivity. Qed.

Lemma frame_set_cursor (p : PDF) (x y : float) :
  frame (set_cursor p x y) = frame p.
Proof. reflexivity. Qed.

Lemma frame_AddColumn (p : PDF) : frame (AddColumn p) = frame p.
Proof.
  unfold AddColumn.
  destruct (_ <? _)%float; reflexivity.
Qed.

Lemma content_AddColumn (p : PDF) : content (AddColumn p) = content p.
Proof.
  unfold AddColumn.
  destruct (_ <? _)%float; reflexivity.
Qed.

Lemma rect_lines_frame (p q : PDF) (rect : Rect) :
  frame p = frame q -> rect_lines p rect = rect_lines q rect.
Proof.
  unfold frame, rect_lines. intros H.
  injection H as _ _ _ Hh Hx Hy _ _ _ _ _ _.
  now rewrite Hh, Hx, Hy.
Qed.

Lemma text_entry_frame (p q : PDF) (text : Text) :
  frame p = frame q -> text_entry p text = text_entry q text.
Proof.
  unfold frame, text_entry. intros H.
  injection H as _ _ _ Hh Hx Hy _ _ _ _ _ Hs.
  now rewrite Hh, Hx, Hy, Hs.
Qed.

Lemma Sprintf_2f_sample :
  Sprintf_2f 100 = "100.00" /\ Sprintf_2f 200 = "200.00" /\
  Sprintf_2f 50 = "50.00".
Proof. repeat split. Qed.

Lemma RenderGradient_returns (p p' : PDF) (g : Gradient) :
  RenderGradient p g 100 100 200 50 = Returns p' ->
  Gradient_Stops g <> [] /\
  frame p' = frame p /\
  content p' = (content p ++ gradient_lines)%list.
Proof.
  unfold RenderGradient.
  destruct (Gradient_Stops g) as [|stop0 stops]; [discriminate|].
  intros H. injection H as <-.
  split; [discriminate|]. split; reflexivity.
Qed.

Lemma gradients_loop_returns (gs : list Gradient) (p p' : PDF) :
  gradients_loop p gs = Returns p' ->
  Forall (fun g => Gradient_Stops g <> []) gs /\
  frame p' = frame p /\
  content p' = (content p ++ flat_map (fun _ => gradient_lines) gs)%list.
Proof.
  revert p. induction gs as [|g gs IH]; intros p; simpl.
  - intros H. injection H as <-.
    split; [constructor|]. split; [reflexivity|]. now rewrite app_nil_r.
  - destruct (RenderGradient p g 100 100 200 50) as [q|msg] eqn:E;
      [|discriminate].
    simpl. intros H.
    apply RenderGradient_returns in E as (Hg & Hf & Hc).
    apply IH in H as (Hall & Hf' & Hc').
    split; [now constructor|].
    split; [congruence|].
    now rewrite Hc', Hc, <- app_assoc.
Qed.

Lemma rects_loop_spec (rs : list Rect) (p : PDF) (stream : list string) :
  let '(p', stream') := rects_loop p stream rs in
  frame p' = frame p /\
  content p' = content p /\
  stream' = (stream ++ flat_map (rect_lines p) rs)%list.
Proof.
  revert p stream.
  induction rs as [|rect rs IH]; intros p stream; cbn [rects_loop flat_map].
  - repeat split. now rewrite app_nil_r.
  - specialize (IH (AddColumn p) (stream ++ rect_lines (AddColumn p) rect)%list).
    destruct (rects_loop _ _ rs) as [p' stream'].
    destruct IH as (Hf & Hc & Hs).
    split; [now rewrite Hf, frame_AddColumn|].
    split; [now rewrite Hc, content_AddColumn|].
    rewrite Hs, <- app_assoc. f_equal.
    rewrite (rect_lines_frame _ p rect (frame_AddColumn p)). f_equal.
    apply flat_map_ext. intros r.
    apply rect_lines_frame, frame_AddColumn.
Qed.

Lemma texts_loop_step (p : PDF) (text : Text) (ts : list Text) :
  texts_loop p (text :: ts) =
  texts_loop
    (set_content (AddColumn p) (content p ++ [text_entry p text])) ts.
Proof.
  cbn [texts_loop]. unfold ApplyTransformation. cbn [String.eqb Ascii.eqb].
  change (("rotate" =? "rotate")%string) with true. cbv iota.
  unfold AddTextWithUnicode. rewrite content_AddColumn.
  do 3 f_equal. unfold text_entry.
  pose proof (frame_AddColumn p) as Hp. unfold frame in Hp.
  injection Hp as _ _ _ Hh Hx Hy _ _ _ _ _ Hs.
  now rewrite Hh, Hx, Hy, Hs.
Qed.

Lemma texts_loop_spec (ts : list Text) (p : PDF) :
  frame (texts_loop p ts) = frame p /\
  content (texts_loop p ts) = (content p ++ map (text_entry p) ts)%list.
Proof.
  revert p. induction ts as [|text ts IH]; intros p.
  - split; [reflexivity|]. cbn. now rewrite app_nil_r.
  - rewrite texts_loop_step.
    destruct (IH (set_content (AddColumn p) (content p ++ [text_entry p text])))
      as (Hf & Hc).
    rewrite frame_set_content, frame_AddColumn in Hf.
    split; [exact Hf|].
    rewrite Hc. cbn [content set_content map]. rewrite <- app_assoc.
    f_equal. cbn [app]. f_equal.
    apply map_ext. intros t. apply text_entry_frame.
    now rewrite frame_set_content, frame_AddColumn.
Qed.

Section ConvertFacts.

Variable ParseFloat : string -> float * option string.

(** What a conversion that returns has done to the document. *)
Lemma convert_decoded_returns (p p' : PDF) (svgData : SVG) :
  convert_decoded ParseFloat p svgData = Returns p' ->
  Forall (fun g => Gradient_Stops g <> []) (SVG_Gradients svgData) /\
  pageCount p' = int64 (pageCount p + 1) /\
  pages p' = (pages p ++ [page_name (int64 (pageCount p + 1))])%list /\
  pageWidth p' = pageWidth p /\
  pageHeight p' = pageHeight p /\
  fontSize p' = fontSize p /\
  scaleX p' = (pageWidth p / fst (svg_size ParseFloat svgData))%float /\
  scaleY p' = (pageHeight p / snd (svg_size ParseFloat svgData))%float /\
  content p' =
    (content p ++ [""] ++
     flat_map (fun _ => gradient_lines) (SVG_Gradients svgData) ++
     map (text_entry p') (SVG_Texts svgData) ++
     [rects_entry p' (SVG_Rects svgData)])%list.
Proof.
  unfold convert_decoded. fold (svg_size ParseFloat svgData).
  destruct (svg_size ParseFloat svgData) as [svgWidth svgHeight]. cbn [fst snd].
  set (p0 := AddPage (set_scale p _ _)).
  destruct (gradients_loop p0 (SVG_Gradients svgData)) as [p1|msg] eqn:Eg;
    [|discriminate].
  cbn [bind].
  apply gradients_loop_returns in Eg as (Hall & Hf1 & Hc1).
  pose proof (rects_loop_spec (SVG_Rects svgData) p1 []) as Hr.
  destruct (rects_loop p1 [] (SVG_Rects svgData)) as [p2 stream].
  destruct Hr as (Hf2 & Hc2 & Hs).
  destruct (texts_loop_spec (SVG_Texts svgData) p2) as (Hf3 & Hc3).
  intros H. injection H as <-.
  set (pf := set_content _ _).
  assert (Hc : content pf =
               (content (texts_loop p2 (SVG_Texts svgData)) ++
                [Join stream newline])%list) by reflexivity.
  assert (Hf : frame pf = frame p0).
  { unfold pf. rewrite frame_set_content. congruence. }
  assert (Hf0 : frame pf = frame p2) by congruence.
  clearbody pf.
  split; [exact Hall|].
  pose proof Hf as Hfields. unfold frame in Hfields at 1 2.
  injection Hfields as Hpages Hcount Hw Hh Hx Hy _ _ _ _ _ Hs'.
  repeat (split; [first [exact Hcount | exact Hpages | exact Hw | exact Hh
                        | exact Hx | exact Hy | exact Hs']|]).
  assert (Ht : map (text_entry pf) (SVG_Texts svgData) =
               map (text_entry p2) (SVG_Texts svgData)).
  { apply map_ext. intros t. now apply text_entry_frame. }
  assert (Hr : rects_entry pf (SVG_Rects svgData) = Join stream newline).
  { unfold rects_entry. rewrite Hs. cbn [app]. f_equal.
    apply flat_map_ext. intros r. apply rect_lines_frame. congruence. }
  rewrite Ht, Hr, Hc, Hc3, Hc2, Hc1.
  unfold p0. cbn [content AddPage set_content set_pages set_scale].
  now rewrite <- !app_assoc.
Qed.

(** A conversion returns exactly when every gradient has a stop. *)
Lemma convert_decoded_total (p : PDF) (svgData : SVG) :
  Forall (fun g => Gradient_Stops g <> []) (SVG_Gradients svgData) ->
  exists p', convert_decoded ParseFloat p svgData = Returns p'.
Proof.
  intros Hall. unfold convert_decoded.
  destruct (if _ : bool then _ else _) as [svgWidth svgHeight].
  set (p0 := AddPage _). clearbody p0.
  assert (Hg : exists p1, gradients_loop p0 (SVG_Gradients svgData) = Returns p1).
  { revert p0.
    induction Hall as [|g gs Hg _ IH]; intros p0; cbn [gradients_loop].
    - now exists p0.
    - unfold RenderGradient.
      destruct (Gradient_Stops g) as [|stop0 stops]; [contradiction|].
      cbn [bind]. apply IH. }
  destruct Hg as [p1 ->]. cbn [bind].
  destruct (rects_loop p1 [] (SVG_Rects svgData)) as [p2 stream].
  eexists. reflexivity.
Qed.

Lemma gradients_loop_panics (gs : list Gradient) (p : PDF) (g : Gradient) :
  In g gs -> Gradient_Stops g = [] ->
  exists msg, gradients_loop p gs = Panics msg.
Proof.
  intros Hin Hg. revert p.
  induction gs as [|g' gs IH]; intros p; [contradiction|].
  cbn [gradients_loop].
  destruct (RenderGradient p g' 100 100 200 50) as [q|msg] eqn:E.
  - cbn [bind]. destruct Hin as [->|Hin].
    + unfold RenderGradient in E. rewrite Hg in E. discriminate.
    + now apply IH.
  - now exists msg.
Qed.

End ConvertFacts.

(** ** The order of the content *)

(** C5, where the code departs from it: the loops run over the gradients, the
    rectangles and the texts in this order, but the operators of the
    rectangles are kept in a local buffer that is appended only after the
    text loop.  What a conversion appends is the empty entry of the new page,
    the three lines of every gradient in input order, one entry per text in
    input order, and last the operators of all rectangles in input order:
    the texts stand before the rectangles, not behind them. *)
Theorem ConvertSVGToPDF_order
  (ParseFloat : string -> float * option string)
  (p p' : PDF) (svgData : SVG) :
  convert_decoded ParseFloat p svgData = Returns p' ->
  content p' =
    (content p ++ [""] ++
     flat_map (fun _ => gradient_lines) (SVG_Gradients svgData) ++
     map (text_entry p') (SVG_Texts svgData) ++
     [rects_entry p' (SVG_Rects svgData)])%list.
Proof.
  intros H. now apply convert_decoded_returns in H.
Qed.

Lemma ConvertSVGToPDF_order_witness :
  exists p',
    convert_decoded ParseFloat_digits fresh gradient_svg = Returns p' /\
    content p' =
      [ "";
        "100.00 100.00 200.00 50.00 re"; "0 0 1 RG"; "S";
        text_entry p' sample_text;
        rects_entry p' [sample_rect] ].
Proof.
  destruct (convert_decoded_total ParseFloat_digits fresh gradient_svg)
    as [p' E].
  { repeat constructor. discriminate. }
  exists p'. split; [exact E|].
  exact (ConvertSVGToPDF_order ParseFloat_digits fresh p' gradient_svg E).
Defined.

(** C5, as the specification states it, fails on the sample drawing: the
    entry of its text stands before the entry of its rectangle. *)
Lemma rectangles_before_text_fails :
  ~ rectangles_before_text ParseFloat_digits fresh sample_svg.
Proof.
  intros H.
  assert (E : convert_decoded ParseFloat_digits fresh sample_svg
              = Returns sample_doc) by (vm_compute; reflexivity).
  specialize (H sample_doc E sample_text (or_introl eq_refl)).
  destruct H as (i & j & Hi & Hj & Hlt).
  destruct i as [|[|[|i]]]; vm_compute in Hi; try discriminate Hi;
    try (destruct i; discriminate Hi).
  destruct j as [|[|[|j]]]; vm_compute in Hj; try discriminate Hj;
    try (destruct j; discriminate Hj).
  lia.
Qed.

Lemma sample_doc_content :
  content sample_doc =
  [ ""; text_entry sample_doc sample_text; rects_entry sample_doc [sample_rect] ].
Proof. vm_compute. reflexivity. Qed.

(** ** Gradients without stops *)

(** C10: [RenderGradient] reads the first stop without a test.  On a gradient
    with no stop the read is out of range and the call panics; with at least
    one stop the call returns.  A conversion of a decoded drawing that has
    such a gradient panics too. *)
Theorem RenderGradient_needs_a_stop
  (ParseFloat : string -> float * option string)
  (p : PDF) (gradient : Gradient) (x y w h : float) :
  (Gradient_Stops gradient = [] ->
     exists msg, RenderGradient p gradient x y w h = Panics msg)
  /\ (Gradient_Stops gradient <> [] ->
     exists p', RenderGradient p gradient x y w h = Returns p')
  /\ (forall (path : string) (svgData : SVG),
        In gradient (SVG_Gradients svgData) ->
        Gradient_Stops gradient = [] ->
        exists msg,
          snd (ConvertSVGToPDF ParseFloat p path (Decoded svgData))
            = Panics msg).
Proof.
  unfold RenderGradient. repeat split.
  - intros ->. now eexists.
  - destruct (Gradient_Stops gradient); [contradiction|]. now eexists.
  - intros path svgData Hin Hg.
    cbn [ConvertSVGToPDF snd]. unfold convert_decoded.
    destruct (if _ : bool then _ else _) as [svgWidth svgHeight].
    destruct (gradients_loop_panics (SVG_Gradients svgData)
                (AddPage (set_scale p (pageWidth p / svgWidth)
                                      (pageHeight p / svgHeight)))
                gradient Hin Hg) as [msg ->].
    now exists msg.
Qed.

Lemma RenderGradient_needs_a_stop_witness :
  (exists msg, RenderGradient fresh stopless_gradient 100 100 200 50
               = Panics msg)
  /\ (exists p', RenderGradient fresh sample_gradient 100 100 200 50
                 = Returns p')
  /\ (exists msg,
        snd (ConvertSVGToPDF ParseFloat_digits fresh "in.svg"
               (Decoded stopless_svg)) = Panics msg).
Proof.
  split; [|split].
  - apply (RenderGradient_needs_a_stop ParseFloat_digits fresh
             stopless_gradient 100 100 200 50). reflexivity.
  - apply (RenderGradient_needs_a_stop ParseFloat_digits fresh
             sample_gradient 100 100 200 50). discriminate.
  - destruct (RenderGradient_needs_a_stop ParseFloat_digits fresh
                stopless_gradient 100 100 200 50) as (_ & _ & Hconv).
    apply (Hconv "in.svg" stopless_svg).
    + right. left. reflexivity.
    + reflexivity.
Defined.

(** ** The scale factors *)

Section ScaleFacts.

Variable ParseFloat : string -> float * option string.

(** Without both attributes the factors come from the defaults. *)
Lemma scale_default (p p' : PDF) (svgData : SVG) :
  SVG_Width svgData = "" \/ SVG_Height svgData = "" ->
  convert_decoded ParseFloat p svgData = Returns p' ->
  scaleX p' = (pageWidth p / 400)%float /\
  scaleY p' = (pageHeight p / 150)%float.
Proof.
  intros Hd H.
  apply convert_decoded_returns in H
    as (_ & _ & _ & _ & _ & _ & Hx & Hy & _).
  unfold svg_size in Hx, Hy.
  assert (E : nonempty (SVG_Width svgData) && nonempty (SVG_Height svgData)
              = false).
  { destruct Hd as [-> | ->]; [reflexivity|]. apply andb_false_r. }
  rewrite E in Hx, Hy. now split.
Qed.

(** With both attributes the factors come from what [ParseFloat] returns,
    whether it reports an error or not. *)
Lemma scale_declared (p p' : PDF) (svgData : SVG) :
  SVG_Width svgData <> "" -> SVG_Height svgData <> "" ->
  convert_decoded ParseFloat p svgData = Returns p' ->
  scaleX p' = (pageWidth p / fst (ParseFloat (SVG_Width svgData)))%float /\
  scaleY p' = (pageHeight p / fst (ParseFloat (SVG_Height svgData)))%float.
Proof.
  intros Hw Hh H.
  apply convert_decoded_returns in H
    as (_ & _ & _ & _ & _ & _ & Hx & Hy & _).
  unfold svg_size in Hx, Hy.
  destruct (SVG_Width svgData); [contradiction|].
  destruct (SVG_Height svgData); [contradiction|].
  now split.
Qed.

End ScaleFacts.

Lemma infinity_is_not_default : (595 / 0)%float <> (595 / 400)%float.
Proof.
  intros H. apply (f_equal is_infinity) in H. vm_compute in H. discriminate.
Qed.

(** C7, where the code departs from it: when both attributes are present and
    the width is not a number, [ParseFloat] returns 0 with its error, the
    error is dropped and the 0 replaces the default: the horizontal factor
    of a fresh document is [595 / 0], positive infinity, and not
    [595 / 400]. *)
Theorem scale_of_nonnumeric_width
  (ParseFloat : string -> float * option string)
  (columns rows : Z) (fnt : string) (size : float)
  (svgData : SVG) (p' : PDF) (err : string) :
  SVG_Width svgData <> "" -> SVG_Height svgData <> "" ->
  ParseFloat (SVG_Width svgData) = (0%float, Some err) ->
  convert_decoded ParseFloat (NewPDF columns rows fnt size) svgData
    = Returns p' ->
  scaleX p' = infinity /\
  scaleX p' <> (pageWidth (NewPDF columns rows fnt size) / 400)%float.
Proof.
  intros Hw Hh Hparse H.
  destruct (scale_declared ParseFloat _ _ _ Hw Hh H) as [Hx _].
  rewrite Hparse in Hx. cbn [fst pageWidth NewPDF] in Hx.
  rewrite Hx. split; [reflexivity|].
  cbn [pageWidth NewPDF]. exact infinity_is_not_default.
Qed.

Lemma scale_of_nonnumeric_width_witness :
  exists p',
    convert_decoded ParseFloat_digits fresh nonnumeric_svg = Returns p' /\
    Sprintf_2f (scaleX p') = "+Inf" /\
    scaleX p' <> (595 / 400)%float.
Proof.
  destruct (convert_decoded_total ParseFloat_digits fresh nonnumeric_svg)
    as [p' E]; [constructor|].
  exists p'. split; [exact E|].
  destruct (scale_of_nonnumeric_width ParseFloat_digits 3 3 "Helvetica" 12
              nonnumeric_svg p' "strconv.ParseFloat: invalid syntax")
    as [Hx Hne]; try discriminate; try reflexivity; try exact E.
  split; [now rewrite Hx|exact Hne].
Defined.

(** ** The serializer *)

Lemma int64_small (z : Z) : - 2 ^ 63 <= z < 2 ^ 63 -> int64 z = z.
Proof.
  intros H. unfold int64.
  rewrite Z.mod_small by (change (2 ^ 64) with (2 ^ 63 + 2 ^ 63); lia).
  lia.
Qed.

(** Removes the wrap-around where the bounds at hand exclude it. *)
Ltac int64_norm :=
  repeat match goal with
         | |- context [int64 ?z] => rewrite (int64_small z) by lia
         | H : context [int64 ?z] |- _ => rewrite (int64_small z) in H by lia
         end.

Lemma int_range_length (lo n : Z) : length (int_range lo n) = Z.to_nat n.
Proof. unfold int_range. now rewrite length_map, length_seq. Qed.

Lemma int_range_In (lo n i : Z) :
  In i (int_range lo n) <-> lo <= i < lo + n.
Proof.
  unfold int_range. rewrite in_map_iff. split.
  - intros (k & <- & Hk). apply in_seq in Hk. lia.
  - intros H. exists (Z.to_nat (i - lo)). split; [lia|].
    apply in_seq. lia.
Qed.

(** The second loop appends the lines of the pages in turn and panics at the
    first page that has no entry in the content. *)
Lemma objects_loop_returns (p : PDF) (ixs : list Z) (pdfContent : list string) :
  Forall (fun i => (Z.to_nat i < length (content p))%nat) ixs ->
  objects_loop p pdfContent ixs
    = Returns (pdfContent ++ flat_map (object_lines p) ixs)%list.
Proof.
  intros Hall. revert pdfContent.
  induction Hall as [|i ixs Hi _ IH]; intros pdfContent; cbn [objects_loop flat_map].
  - now rewrite app_nil_r.
  - destruct (nth_error (content p) (Z.to_nat i)) as [contentStream|] eqn:E.
    + rewrite IH. unfold object_lines.
      rewrite (nth_error_nth _ _ _ E). now rewrite <- !app_assoc.
    + apply nth_error_None in E. lia.
Qed.

Lemma objects_loop_inv (p : PDF) (ixs : list Z) (pdfContent out : list string) :
  objects_loop p pdfContent ixs = Returns out ->
  out = (pdfContent ++ flat_map (object_lines p) ixs)%list.
Proof.
  revert pdfContent.
  induction ixs as [|i ixs IH]; intros pdfContent; cbn [objects_loop flat_map].
  - intros H. injection H as <-. now rewrite app_nil_r.
  - destruct (nth_error (content p) (Z.to_nat i)) as [contentStream|] eqn:E;
      [|discriminate].
    intros H. apply IH in H. subst out. unfold object_lines.
    rewrite (nth_error_nth _ _ _ E). now rewrite <- !app_assoc.
Qed.

Lemma Save_pdfContent_inv (p : PDF) (pdfContent : list string) :
  Save_pdfContent p = Returns pdfContent ->
  pdfContent =
    (preamble_lines p ++
     flat_map (object_lines p) (int_range 0 (pageCount p)))%list.
Proof.
  unfold Save_pdfContent. intros H. apply objects_loop_inv in H.
  subst pdfContent. unfold preamble_lines. now rewrite <- !app_assoc.
Qed.

Lemma Save_pdfContent_returns (p : PDF) :
  pageCount p <= Z.of_nat (length (content p)) ->
  Save_pdfContent p =
    Returns (preamble_lines p ++
             flat_map (object_lines p) (int_range 0 (pageCount p)))%list.
Proof.
  intros Hc. unfold Save_pdfContent. rewrite objects_loop_returns.
  - unfold preamble_lines. now rewrite <- !app_assoc.
  - apply Forall_forall. intros i Hi. apply int_range_In in Hi. lia.
Qed.

(** The third loop appends one entry for every index it visits. *)
Lemma xref_loop_inv (pdfContent : list string) (ixs : list Z)
  (xref : list string) (off : Z) (xref' : list string) (off' : Z) :
  xref_loop pdfContent xref off ixs = Returns (xref', off') ->
  exists entries,
    xref' = (xref ++ entries)%list /\ length entries = length ixs /\
    (forall e, In e entries -> exists o, e = Sprintf_010d o ++ " 00000 n ").
Proof.
  revert xref off.
  induction ixs as [|i ixs IH]; intros xref off; cbn [xref_loop].
  - intros H. injection H as <- <-. exists []. rewrite app_nil_r.
    repeat split. intros e [].
  - destruct (nth_error pdfContent (Z.to_nat i)) as [line|]; [|discriminate].
    intros H. apply IH in H as (entries & -> & Hlen & Hall).
    exists ((Sprintf_010d off ++ " 00000 n ") :: entries).
    rewrite <- app_assoc. repeat split.
    + cbn [length]. now rewrite Hlen.
    + intros e [<-|He]; [now exists off|now apply Hall].
Qed.

Lemma xref_loop_returns (pdfContent : list string) (ixs : list Z)
  (xref : list string) (off : Z) :
  Forall (fun i => (Z.to_nat i < length pdfContent)%nat) ixs ->
  exists r, xref_loop pdfContent xref off ixs = Returns r.
Proof.
  intros Hall. revert xref off.
  induction Hall as [|i ixs Hi _ IH]; intros xref off; cbn [xref_loop].
  - now eexists.
  - destruct (nth_error pdfContent (Z.to_nat i)) as [line|] eqn:E.
    + apply IH.
    + apply nth_error_None in E. lia.
Qed.

Lemma object_lines_length (p : PDF) (i : Z) :
  length (object_lines p i) = 21%nat.
Proof. reflexivity. Qed.

Lemma flat_map_length_const {A B : Type} (f : A -> list B) (n : nat)
  (l : list A) :
  (forall a, length (f a) = n) -> length (flat_map f l) = (n * length l)%nat.
Proof.
  intros Hf. induction l as [|a l IH]; cbn [flat_map length]; [lia|].
  rewrite length_app, Hf, IH. lia.
Qed.

Lemma preamble_lines_length (p : PDF) :
  length (preamble_lines p) = (24 + Z.to_nat (pageCount p))%nat.
Proof.
  unfold preamble_lines, kids_lines.
  rewrite !length_app, length_map, int_range_length. cbn [length header_lines
    catalog_lines pages_open_lines pages_close_lines font_lines]. lia.
Qed.

Lemma xref_count_small (p : PDF) :
  0 <= pageCount p < 2 ^ 60 -> xref_count p = 5 + pageCount p * 2 + 1.
Proof.
  intros H. unfold xref_count. now int64_norm.
Qed.

(** [Save] does not panic on a document that has an entry of content for
    every page, as every document built by [AddPage] has. *)
Lemma Save_parts_returns (p : PDF) :
  0 <= pageCount p < 2 ^ 60 ->
  pageCount p <= Z.of_nat (length (content p)) ->
  exists parts, Save_parts p = Returns parts.
Proof.
  intros Hn Hc. unfold Save_parts.
  rewrite (Save_pdfContent_returns p Hc). cbn [bind].
  set (pdfContent := (preamble_lines p ++ _)%list).
  assert (Hlen : length pdfContent = (24 + 22 * Z.to_nat (pageCount p))%nat).
  { unfold pdfContent.
    rewrite length_app, preamble_lines_length,
      (flat_map_length_const _ 21%nat) by apply object_lines_length.
    rewrite int_range_length. lia. }
  match goal with
  | |- context [xref_loop pdfContent ?x ?o ?r] =>
      destruct (xref_loop_returns pdfContent r x o) as [[xref off] ->]
  end.
  - apply Forall_forall. intros i Hi. apply int_range_In in Hi.
    int64_norm. lia.
  - cbn [bind]. now eexists.
Qed.

(** C3, where the code departs from it: the subsection header of the
    cross-reference table and [/Size] in the trailer both give
    [5 + N*2 + 1], but the loop writes [4 + N*2] entries behind the free-list
    head: the table has [5 + N*2] entry lines, one fewer than it declares. *)
Theorem Save_xref_entries
  (p : PDF) (pdfContent xref trailer : list string) :
  0 <= pageCount p < 2 ^ 60 ->
  Save_parts p = Returns (pdfContent, xref, trailer) ->
  exists entries,
    xref = ("xref" :: ("0 " ++ Itoa (5 + pageCount p * 2 + 1))%string
                   :: "0000000000 65535 f " :: entries)
    /\ Z.of_nat (length ("0000000000 65535 f " :: entries))
       = 5 + pageCount p * 2
    /\ nth_error trailer 2 = Some ("/Size " ++ Itoa (5 + pageCount p * 2 + 1)).
Proof.
  intros Hn. unfold Save_parts.
  destruct (Save_pdfContent p) as [pc|msg]; [|discriminate]. cbn [bind].
  match goal with
  | |- context [xref_loop pc ?x ?o ?r] =>
      destruct (xref_loop pc x o r) as [[xref' off']|msg] eqn:E
  end; [|discriminate].
  cbn [bind]. intros H. injection H as <- <- <-.
  apply xref_loop_inv in E as (entries & -> & Hlen & _).
  exists entries. unfold xref_head, trailer_lines.
  rewrite (xref_count_small p Hn).
  split; [reflexivity|]. split; [|reflexivity].
  cbn [length]. rewrite Hlen, int_range_length.
  int64_norm. lia.
Qed.

Lemma sample_doc_pageCount : pageCount sample_doc = 1.
Proof. vm_compute. reflexivity. Qed.

Lemma Save_xref_entries_witness :
  exists pdfContent xref trailer entries,
    Save_parts sample_doc = Returns (pdfContent, xref, trailer)
    /\ xref = "xref" :: "0 8" :: "0000000000 65535 f " :: entries
    /\ length ("0000000000 65535 f " :: entries) = 7%nat
    /\ nth_error trailer 2 = Some "/Size 8".
Proof.
  destruct (Save_parts sample_doc) as [[[pc xref] trailer]|msg] eqn:E;
    [|vm_compute in E; discriminate E].
  assert (Hn : 0 <= pageCount sample_doc < 2 ^ 60)
    by (rewrite sample_doc_pageCount; lia).
  destruct (Save_xref_entries sample_doc pc xref trailer Hn E)
    as (entries & Hx & Hlen & Hsize).
  rewrite sample_doc_pageCount in Hx, Hlen, Hsize.
  exists pc, xref, trailer, entries.
  split; [reflexivity|]. split; [exact Hx|]. split; [lia|exact Hsize].
Defined.

(** The same table read back from the bytes of the file. *)
Example sample_doc_xref_bytes :
  option_map xref_section (Save_data sample_doc)
    = Some [ "0 8";
             "0000000000 65535 f ";
             "0000000020 00000 n "; "0000000030 00000 n ";
             "0000000038 00000 n "; "0000000041 00000 n ";
             "0000000056 00000 n "; "0000000069 00000 n " ]
  /\ option_map trailer_Size (Save_data sample_doc) = Some (Some "/Size 8").
Proof. split; vm_compute; reflexivity. Qed.

(** ** The numbering of the objects *)

(** The references in [Kids], when nothing wraps around. *)
Lemma kids_lines_small (p : PDF) :
  0 <= pageCount p < 2 ^ 60 ->
  kids_lines p =
  map (fun i => Itoa (3 + i * 2) ++ " 0 R") (int_range 0 (pageCount p)).
Proof.
  intros Hn. unfold kids_lines. apply map_ext_in.
  intros i Hi. apply int_range_In in Hi. now int64_norm.
Qed.

(** The header lines of the two objects of page [i]. *)
Lemma object_lines_headers (p : PDF) (i : Z) :
  0 <= i < 2 ^ 60 ->
  nth_error (object_lines p i) 0 = Some (Itoa (4 + i * 2) ++ " 0 obj") /\
  nth_error (object_lines p i) 13 = Some (Itoa (5 + i * 2) ++ " 0 obj").
Proof.
  intros Hi. unfold object_lines, page_lines, stream_lines.
  cbn [app nth_error]. now int64_norm.
Qed.

(** C1, where the code departs from it: in the file of a two-page document
    the page objects are 4 and 6 and the content streams 5 and 7, as stated,
    but [Kids] lists 3 and 5, the font and the first content stream, not the
    pages 4 and 6. *)
Theorem Save_two_pages_numbering :
  pageCount two_page_doc = 2
  /\ option_map Page_objects (Save_data two_page_doc)
     = Some ["4 0 obj"; "6 0 obj"]
  /\ option_map Stream_objects (Save_data two_page_doc)
     = Some ["5 0 obj"; "7 0 obj"]
  /\ option_map Kids_array (Save_data two_page_doc)
     = Some ["3 0 R"; "5 0 R"]
  /\ option_map Kids_array (Save_data two_page_doc)
     <> Some ["4 0 R"; "6 0 R"].
Proof.
  assert (Hk : option_map Kids_array (Save_data two_page_doc)
               = Some ["3 0 R"; "5 0 R"]) by (vm_compute; reflexivity).
  split; [vm_compute; reflexivity|].
  split; [vm_compute; reflexivity|].
  split; [vm_compute; reflexivity|].
  split; [exact Hk|].
  rewrite Hk. discriminate.
Qed.

(** ** The offsets of the cross-reference table *)

(** C2, where the code departs from it: in the file of the sample document
    the objects 1 to 5 begin at the bytes 19, 68, 127, 207 and 339, and the
    keyword [xref] at byte 388; the table records 20, 30, 38, 41 and 56 for
    them, and [startxref] gives 72.  The first offset is one too large, and
    the loop then advances by one line of the file, not by one object. *)
Theorem Save_sample_offsets :
  option_map (fun data => map (object_offset data) [1; 2; 3; 4; 5])
             (Save_data sample_doc)
    = Some [Some 19; Some 68; Some 127; Some 207; Some 339]
  /\ option_map xref_entries (Save_data sample_doc)
     = Some [ "0000000000 65535 f ";
              "0000000020 00000 n "; "0000000030 00000 n ";
              "0000000038 00000 n "; "0000000041 00000 n ";
              "0000000056 00000 n "; "0000000069 00000 n " ]
  /\ option_map xref_keyword_offset (Save_data sample_doc) = Some (Some 388)
  /\ option_map startxref_value (Save_data sample_doc) = Some (Some "72").
Proof. repeat split; vm_compute; reflexivity. Qed.

(** ** The content streams *)

(** The stream object of page [i] carries entry [i] of the content list and
    declares its number of bytes. *)
Lemma stream_lines_body (i : Z) (contentStream : string) :
  nth_error (stream_lines i contentStream) 2
    = Some ("/Length " ++ Itoa (len contentStream)) /\
  nth_error (stream_lines i contentStream) 5 = Some contentStream.
Proof. split; reflexivity. Qed.

(** C4, where the code departs from it: after the conversion of any drawing
    into a new document, the operators of the page are the entries behind the
    first one of the content list, and there is always at least the entry of
    the rectangles; the stream of the page, object 5, is the first entry,
    which [AddPage] left empty, with a declared length of 0. *)
Theorem Save_first_stream_is_empty
  (ParseFloat : string -> float * option string)
  (columns rows : Z) (fnt : string) (size : float)
  (svgData : SVG) (p' : PDF) :
  convert_decoded ParseFloat (NewPDF columns rows fnt size) svgData
    = Returns p' ->
  content p' =
    "" :: (flat_map (fun _ => gradient_lines) (SVG_Gradients svgData) ++
           map (text_entry p') (SVG_Texts svgData) ++
           [rects_entry p' (SVG_Rects svgData)])%list
  /\ Save_pdfContent p' =
       Returns (preamble_lines p' ++ page_lines p' 0 ++ stream_lines 0 "")%list
  /\ stream_lines 0 "" =
       [ "5 0 obj"; "<<"; "/Length 0"; ">>"; "stream"; ""; "endstream";
         "endobj" ].
Proof.
  intros H.
  apply convert_decoded_returns in H
    as (_ & Hn & _ & _ & _ & _ & _ & _ & Hc).
  cbn [content pageCount NewPDF app] in Hc, Hn.
  change (int64 (0 + 1)) with 1 in Hn.
  split; [exact Hc|]. split; [|reflexivity].
  rewrite Save_pdfContent_returns by (rewrite Hn, Hc; cbn [length]; lia).
  rewrite Hn. change (int_range 0 1) with [0]. cbn [flat_map].
  unfold object_lines. rewrite Hc. cbn [nth Z.to_nat].
  now rewrite app_nil_r.
Qed.

Lemma Save_first_stream_is_empty_witness :
  content sample_doc =
    [ ""; text_entry sample_doc sample_text;
      rects_entry sample_doc [sample_rect] ]
  /\ option_map (fun data => stream_body data 5) (Save_data sample_doc)
     = Some ""
  /\ option_map (fun data => stream_Length data 5) (Save_data sample_doc)
     = Some (Some "/Length 0").
Proof.
  assert (E : convert_decoded ParseFloat_digits (NewPDF 3 3 "Helvetica" 12)
                sample_svg = Returns sample_doc) by (vm_compute; reflexivity).
  destruct (Save_first_stream_is_empty ParseFloat_digits 3 3 "Helvetica" 12
              sample_svg sample_doc E) as (Hc & Hs & _).
  split; [exact Hc|].
  unfold Save_data, Save_parts. rewrite Hs.
  split; vm_compute; reflexivity.
Defined.

(** In the two-page document the stream of the second page is the second
    entry of the content list: the text of the first page. *)
Example two_page_doc_streams :
  option_map (fun data => (stream_body data 5, stream_body data 7))
             (Save_data two_page_doc)
    = Some ("", text_entry sample_doc sample_text).
Proof. vm_compute. reflexivity. Qed.

Lemma ConvertSVGToPDF_failure_witness :
  snd (ConvertSVGToPDF ParseFloat_digits fresh "in.svg"
         (OpenFails "open in.svg: no such file or directory"))
    = Returns (fresh,
               Some "error opening SVG file: open in.svg: no such file or directory")
  /\ (exists data,
        Save_data sample_doc = Some data /\
        writes (fst (Save sample_doc "out.pdf" None)) = [("out.pdf", data)] /\
        snd (Save sample_doc "out.pdf" (Some "permission denied"))
          = Returns (Some "error writing PDF: permission denied")).
Proof.
  split.
  - now rewrite (proj1 (ConvertSVGToPDF_failure ParseFloat_digits fresh
                          "in.svg" "open in.svg: no such file or directory")).
  - destruct (Save_data sample_doc) as [data|] eqn:E;
      [|vm_compute in E; discriminate E].
    exists data. split; [reflexivity|].
    destruct (ConvertSVGToPDF_failure ParseFloat_digits sample_doc
                "in.svg" "permission denied") as (_ & _ & _ & Hsave).
    destruct (Hsave "out.pdf" data E) as (Hw & _ & _ & He).
    split; [exact Hw|exact He].
Defined.

(** ** Documents built through the package *)

Lemma int64_succ (a : Z) : int64 (int64 a + 1) = int64 (a + 1).
Proof.
  unfold int64. f_equal.
  replace ((a + 2 ^ 63) mod 2 ^ 64 - 2 ^ 63 + 1 + 2 ^ 63)
    with ((a + 2 ^ 63) mod 2 ^ 64 + 1) by lia.
  rewrite Zplus_mod_idemp_l. f_equal. lia.
Qed.

Lemma well_formed_AddPage (p : PDF) :
  well_formed p -> well_formed (AddPage p).
Proof.
  intros (Hn & Hc & Hw & Hh). unfold well_formed, AddPage.
  cbn [pageCount pages content pageWidth pageHeight set_content set_pages].
  rewrite !length_app. cbn [length].
  repeat split; try assumption; try lia.
  rewrite Hn, int64_succ. f_equal. lia.
Qed.

Lemma well_formed_frame (p q : PDF) :
  frame q = frame p -> (length (content p) <= length (content q))%nat ->
  well_formed p -> well_formed q.
Proof.
  unfold frame, well_formed. intros Hf Hc (Hn & Hl & Hw & Hh).
  injection Hf as -> -> -> -> _ _ _ _ _ _ _ _.
  repeat split; try assumption. lia.
Qed.

Lemma built_well_formed (p : PDF) : built p -> well_formed p.
Proof.
  induction 1 as [columns rows fnt size | p _ IH | p _ IH | p _ IH
                 | p x y text _ IH | p p' g x y w h _ IH E
                 | ParseFloat p p' path src err _ IH E].
  - repeat split. cbn. lia.
  - now apply well_formed_AddPage.
  - revert IH. apply well_formed_frame; [reflexivity|]. cbn. lia.
  - revert IH. apply well_formed_frame; [apply frame_AddColumn|].
    rewrite content_AddColumn. lia.
  - revert IH. apply well_formed_frame; [reflexivity|].
    unfold AddTextWithUnicode. cbn [content set_content].
    rewrite length_app. lia.
  - unfold RenderGradient in E.
    destruct (Gradient_Stops g); [discriminate|]. injection E as <-.
    revert IH. apply well_formed_frame; [reflexivity|].
    cbn [content set_content]. rewrite length_app. lia.
  - destruct src as [cause|cause|svgData]; cbn [ConvertSVGToPDF snd] in E.
    + injection E as <- _. exact IH.
    + injection E as <- _. exact IH.
    + destruct (convert_decoded ParseFloat p svgData) as [q|msg] eqn:Eq;
        [|discriminate].
      cbn [bind] in E. injection E as <- _.
      destruct IH as (Hn & Hl & Hw & Hh).
      apply convert_decoded_returns in Eq
        as (_ & Hn' & Hp' & Hw' & Hh' & _ & _ & _ & Hc').
      unfold well_formed. rewrite Hn', Hp', Hw', Hh', Hc', Hn.
      rewrite !length_app. cbn [length].
      repeat split; try assumption; try lia.
      rewrite int64_succ. f_equal. lia.
Qed.

(** [Save] returns on every document built through the package, as long as
    the page counter has not come near its wrap-around. *)
Lemma built_Save_returns (p : PDF) :
  built p -> Z.of_nat (length (pages p)) < 2 ^ 60 ->
  exists parts, Save_parts p = Returns parts.
Proof.
  intros Hb Hlen.
  destruct (built_well_formed p Hb) as (Hn & Hc & _ & _).
  rewrite int64_small in Hn by lia.
  apply Save_parts_returns; lia.
Qed.

(** ** The first offsets of every file *)

Lemma int_range_cons (lo n : Z) :
  0 < n -> int_range lo n = lo :: int_range (lo + 1) (n - 1).
Proof.
  intros Hn. unfold int_range.
  replace (Z.to_nat n) with (S (Z.to_nat (n - 1))) by lia.
  cbn [seq map]. f_equal; [lia|].
  rewrite <- seq_shift, map_map. apply map_ext. intros k. lia.
Qed.

Lemma preamble_lines_start (p : PDF) :
  exists rest,
    preamble_lines p =
    "%PDF-1.4" :: binary_marker :: "1 0 obj" :: "<<" :: "/Type /Catalog"
      :: "/Pages 2 0 R" :: ">>" :: "endobj" :: "2 0 obj" :: rest.
Proof. eexists. reflexivity. Qed.

(** Whatever the document, the table starts with the offsets 20 and 30 for
    the objects 1 and 2, which begin at the bytes 19 and 68 of the file. *)
Lemma Save_first_offsets (p : PDF) (pdfContent xref trailer : list string) :
  0 <= pageCount p < 2 ^ 60 ->
  Save_parts p = Returns (pdfContent, xref, trailer) ->
  nth_error xref 3 = Some "0000000020 00000 n "
  /\ nth_error xref 4 = Some "0000000030 00000 n "
  /\ line_offset "1 0 obj" pdfContent 0 = Some 19
  /\ line_offset "2 0 obj" pdfContent 0 = Some 68.
Proof.
  intros Hn. unfold Save_parts.
  destruct (Save_pdfContent p) as [pc|msg] eqn:Epc; [|discriminate].
  cbn [bind].
  apply Save_pdfContent_inv in Epc.
  destruct (preamble_lines_start p) as [rest Hpre].
  rewrite Hpre in Epc. cbn [app] in Epc.
  set (tail := (rest ++ _)%list) in Epc. clearbody tail. subst pc.
  assert (Hr : int_range 1 (int64 (4 + int64 (pageCount p * 2)))
               = 1 :: 2 :: int_range 3 (2 + pageCount p * 2)).
  { int64_norm. rewrite int_range_cons by lia. f_equal.
    rewrite int_range_cons by lia. f_equal. f_equal. lia. }
  rewrite Hr. cbn [firstn xref_loop].
  change (Z.to_nat 1) with 1%nat. change (Z.to_nat 2) with 2%nat.
  cbn [nth_error].
  match goal with
  | |- context [xref_loop ?c ?x ?o ?r] =>
      destruct (xref_loop c x o r) as [[xref' off']|msg] eqn:E
  end; [|discriminate].
  intros H. injection H as <- <- <-.
  apply xref_loop_inv in E as (entries & -> & _).
  repeat split.
Qed.

(** ** The end-to-end scenario *)

(** One page; the text is shown escaped and rotated, the rectangle runs
    along the top edge of the page; the factors are 595/400 and 842/150. *)
Example sample_doc_evaluated :
  pageCount sample_doc = 1
  /\ pages sample_doc = ["Page 1"]
  /\ scaleX sample_doc = (595 / 400)%float
  /\ scaleY sample_doc = (842 / 150)%float
  /\ content sample_doc =
       [ "";
         Join [ "BT"; "/F1 12.00 Tf"; "785.87 580.12 Td"; "(Hi\(there\)) Tj";
                "ET" ] newline;
         Join [ "0.00 842.00 m"; "148.75 842.00 l"; "148.75 561.33 l";
                "0.00 561.33 l"; "h"; "0 0 0 RG"; "S" ] newline ].
Proof. repeat split. Qed.

(** A drawing without dimensions gets the default factors. *)
Example default_scale_evaluated :
  forall p',
    convert_decoded ParseFloat_digits fresh
      {| SVG_Width := ""; SVG_Height := ""; SVG_Rects := [];
         SVG_Texts := []; SVG_Paths := []; SVG_Gradients := [] |}
      = Returns p' ->
    scaleX p' = (595 / 400)%float /\ scaleY p' = (842 / 150)%float.
Proof.
  intros p' H.
  apply (scale_default ParseFloat_digits fresh p') in H as [Hx Hy];
    [|now left].
  now split.
Qed.


(** * Further properties *)

Lemma Returns_inj {A : Type} (a b : A) : Returns a = Returns b -> a = b.
Proof. intros H. now injection H. Qed.

(** ** Pages and sizes of the documents built through the package *)

Lemma int_range_snoc (lo n : Z) :
  0 <= n -> int_range lo (n + 1) = (int_range lo n ++ [lo + n])%list.
Proof.
  intros Hn. unfold int_range.
  replace (Z.to_nat (n + 1)) with (S (Z.to_nat n)) by lia.
  rewrite seq_S, map_app. cbn [map Nat.add]. do 3 f_equal. lia.
Qed.

(** The counter follows the list of pages, and page [k] is named after the
    wrapped number [k]. *)
Lemma built_pages_wrapping (p : PDF) :
  built p ->
  pageCount p = int64 (Z.of_nat (length (pages p))) /\
  pages p = map (fun k => page_name (int64 (Z.of_nat k)))
                (seq 1 (length (pages p))).
Proof.
  assert (Hframe : forall p q,
    frame q = frame p ->
    pageCount p = int64 (Z.of_nat (length (pages p))) /\
    pages p = map (fun k => page_name (int64 (Z.of_nat k)))
                  (seq 1 (length (pages p))) ->
    pageCount q = int64 (Z.of_nat (length (pages q))) /\
    pages q = map (fun k => page_name (int64 (Z.of_nat k)))
                  (seq 1 (length (pages q)))).
  { intros p0 q Hf. unfold frame in Hf.
    injection Hf as -> -> _ _ _ _ _ _ _ _ _ _. tauto. }
  assert (Hstep : forall (q : PDF) (ps : list string) (n : Z),
    pageCount q = int64 (Z.of_nat (length (pages q))) /\
    pages q = map (fun k => page_name (int64 (Z.of_nat k)))
                  (seq 1 (length (pages q))) ->
    n = int64 (pageCount q + 1) ->
    ps = (pages q ++ [page_name n])%list ->
    n = int64 (Z.of_nat (length ps)) /\
    ps = map (fun k => page_name (int64 (Z.of_nat k))) (seq 1 (length ps))).
  { intros q ps n (Hn & Hq) -> ->. rewrite length_app. cbn [length].
    rewrite Nat.add_1_r, Hn, int64_succ.
    replace (Z.of_nat (length (pages q)) + 1)
      with (Z.of_nat (S (length (pages q)))) by lia.
    split; [reflexivity|].
    rewrite seq_S, map_app, <- Hq. reflexivity. }
  induction 1 as [columns rows fnt size | p _ IH | p _ IH | p _ IH
                 | p x y text _ IH | p p' g x y w h _ IH E
                 | ParseFloat p p' path src err _ IH E].
  - split; reflexivity.
  - apply (Hstep p); [exact IH|reflexivity|reflexivity].
  - exact IH.
  - apply (Hframe p); [apply frame_AddColumn|exact IH].
  - exact IH.
  - unfold RenderGradient in E.
    destruct (Gradient_Stops g); [discriminate|]. injection E as <-. exact IH.
  - destruct src as [cause|cause|svgData]; cbn [ConvertSVGToPDF snd] in E.
    + injection E as <- _. exact IH.
    + injection E as <- _. exact IH.
    + destruct (convert_decoded ParseFloat p svgData) as [q|msg] eqn:Eq;
        [|discriminate].
      cbn [bind] in E. injection E as <- _.
      apply convert_decoded_returns in Eq as (_ & Hn' & Hp' & _).
      apply (Hstep p); [exact IH|exact Hn'|now rewrite Hn'].
Qed.

(** X1: in a document built through the package with fewer than 2^63 pages,
    the counter is the number of pages, the pages are named [Page 1],
    [Page 2] and so on in order, the content list has at least one entry per
    page, and the page measures 595 by 842 points. *)
Theorem built_pages_numbered (p : PDF) :
  built p ->
  Z.of_nat (length (pages p)) < 2 ^ 63 ->
  pageCount p = Z.of_nat (length (pages p))
  /\ pages p = map page_name (int_range 1 (pageCount p))
  /\ pageCount p <= Z.of_nat (length (content p))
  /\ pageWidth p = 595%float /\ pageHeight p = 842%float.
Proof.
  intros Hb Hlen.
  destruct (built_well_formed p Hb) as (_ & Hc & Hw & Hh).
  destruct (built_pages_wrapping p Hb) as (Hn & Hp).
  rewrite int64_small in Hn by lia.
  split; [exact Hn|]. split; [|split; [lia|now split]].
  rewrite Hn. unfold int_range. rewrite Nat2Z.id.
  rewrite Hp at 1. rewrite <- (map_map Z.of_nat (fun z => page_name (int64 z))).
  rewrite <- (map_map Z.of_nat (fun z => 1 + z)), map_map.
  rewrite <- seq_shift, !map_map.
  apply map_ext_in. intros k Hk. apply in_seq in Hk.
  rewrite int64_small by lia. f_equal. lia.
Qed.

Lemma built_pages_numbered_witness :
  pageCount two_page_doc = 2 /\
  pages two_page_doc = ["Page 1"; "Page 2"] /\
  pageCount two_page_doc <= Z.of_nat (length (content two_page_doc)).
Proof.
  assert (Hb : built two_page_doc).
  { apply (built_ConvertSVGToPDF ParseFloat_digits sample_doc two_page_doc
             "in.svg" (Decoded sample_svg) None).
    - apply (built_ConvertSVGToPDF ParseFloat_digits fresh sample_doc
               "in.svg" (Decoded sample_svg) None).
      + apply built_NewPDF.
      + vm_compute. reflexivity.
    - vm_compute. reflexivity. }
  assert (Hlen : Z.of_nat (length (pages two_page_doc)) < 2 ^ 63)
    by (vm_compute; reflexivity).
  destruct (built_pages_numbered two_page_doc Hb Hlen) as (Hn & Hp & Hc & _).
  split; [exact Hn|]. split; [|exact Hc].
  rewrite Hp. vm_compute. reflexivity.
Defined.

(** ** [Save] on the documents built through the package *)

(** X2: on a document built through the package with fewer than 2^60 pages,
    [Save] does not panic: it calls [WriteFile] once, with the same bytes
    whether the write succeeds or not, prints its message only after a
    successful write, and returns the error of the write, if any, behind the
    text [error writing PDF: ]. *)
Theorem Save_on_built (p : PDF) (path : string) (written : option string) :
  built p ->
  Z.of_nat (length (pages p)) < 2 ^ 60 ->
  exists data,
    Save_data p = Some data
    /\ fst (Save p path written) =
         EvWriteFile path data ::
         match written with
         | None => [EvPrint ("Successfully generated " ++ path ++ newline)]
         | Some _ => []
         end
    /\ snd (Save p path written) =
         Returns (option_map (fun cause => "error writing PDF: " ++ cause)
                             written).
Proof.
  intros Hb Hlen.
  destruct (built_Save_returns p Hb Hlen) as [parts Hparts].
  exists (finalContent parts).
  unfold Save_data, Save. rewrite Hparts.
  destruct written as [cause|]; repeat split.
Qed.

Lemma built_sample_doc : built sample_doc.
Proof.
  apply (built_ConvertSVGToPDF ParseFloat_digits fresh sample_doc
           "in.svg" (Decoded sample_svg) None).
  - apply built_NewPDF.
  - vm_compute. reflexivity.
Qed.

Lemma Save_on_built_witness :
  exists data,
    Save_data sample_doc = Some data
    /\ fst (Save sample_doc "out.pdf" (Some "disk full"))
       = [EvWriteFile "out.pdf" data]
    /\ snd (Save sample_doc "out.pdf" (Some "disk full"))
       = Returns (Some "error writing PDF: disk full").
Proof.
  assert (Hlen : Z.of_nat (length (pages sample_doc)) < 2 ^ 60)
    by (vm_compute; reflexivity).
  exact (Save_on_built sample_doc "out.pdf" (Some "disk full")
           built_sample_doc Hlen).
Defined.

(** ** The layout cursor *)

Lemma layout_AddColumn_step (p : PDF) :
  layout (AddColumn p) = layout_step (layout p).
Proof.
  unfold layout, layout_step, AddColumn, AddRow.
  cbn [currentX currentY columnWidth rowHeight pageWidth set_cursor].
  destruct (_ <? _)%float; reflexivity.
Qed.

Lemma layout_AddColumn (p q : PDF) :
  layout p = layout q -> layout (AddColumn p) = layout (AddColumn q).
Proof. intros H. now rewrite !layout_AddColumn_step, H. Qed.

Lemma layout_iter_AddColumn (n : nat) (p q : PDF) :
  layout p = layout q ->
  layout (Nat.iter n AddColumn p) = layout (Nat.iter n AddColumn q).
Proof.
  intros H. induction n as [|n IH]; [exact H|].
  rewrite !Nat.iter_succ. now apply layout_AddColumn.
Qed.

Lemma iter_AddColumn_shift (n : nat) (p : PDF) :
  Nat.iter n AddColumn (AddColumn p) = Nat.iter (S n) AddColumn p.
Proof. symmetry. apply Nat.iter_succ_r. Qed.

Lemma rects_loop_layout (rs : list Rect) (p : PDF) (stream : list string) :
  layout (fst (rects_loop p stream rs))
    = layout (Nat.iter (length rs) AddColumn p).
Proof.
  revert p stream.
  induction rs as [|rect rs IH]; intros p stream; cbn [rects_loop length].
  - reflexivity.
  - rewrite IH. now rewrite iter_AddColumn_shift.
Qed.

Lemma texts_loop_layout (ts : list Text) (p : PDF) :
  layout (texts_loop p ts) = layout (Nat.iter (length ts) AddColumn p).
Proof.
  revert p. induction ts as [|text ts IH]; intros p; [reflexivity|].
  rewrite texts_loop_step, IH. cbn [length].
  rewrite <- iter_AddColumn_shift.
  apply layout_iter_AddColumn. reflexivity.
Qed.

Lemma gradients_loop_layout (gs : list Gradient) (p p' : PDF) :
  gradients_loop p gs = Returns p' -> layout p' = layout p.
Proof.
  revert p. induction gs as [|g gs IH]; intros p; cbn [gradients_loop].
  - intros H. now injection H as <-.
  - unfold RenderGradient.
    destruct (Gradient_Stops g); [discriminate|]. cbn [bind].
    intros H. now apply IH in H.
Qed.

Lemma iter_AddColumn_add (n m : nat) (p : PDF) :
  Nat.iter n AddColumn (Nat.iter m AddColumn p)
    = Nat.iter (m + n) AddColumn p.
Proof. rewrite Nat.add_comm. symmetry. apply Nat.iter_add. Qed.

Lemma convert_decoded_layout
  (ParseFloat : string -> float * option string)
  (p p' : PDF) (svgData : SVG) :
  convert_decoded ParseFloat p svgData = Returns p' ->
  layout p' =
  layout (Nat.iter (length (SVG_Rects svgData) + length (SVG_Texts svgData))
                   AddColumn p).
Proof.
  unfold convert_decoded.
  destruct (if _ : bool then _ else _) as [svgWidth svgHeight].
  set (p0 := AddPage _).
  assert (H0 : layout p0 = layout p) by reflexivity. clearbody p0.
  destruct (gradients_loop p0 (SVG_Gradients svgData)) as [p1|msg] eqn:Eg;
    [|discriminate].
  cbn [bind]. apply gradients_loop_layout in Eg.
  pose proof (rects_loop_layout (SVG_Rects svgData) p1 []) as Hr.
  destruct (rects_loop p1 [] (SVG_Rects svgData)) as [p2 stream].
  cbn [fst] in Hr.
  intros H. injection H as <-.
  change (layout (set_content ?q ?c)) with (layout q).
  rewrite texts_loop_layout, <- iter_AddColumn_add.
  apply layout_iter_AddColumn. rewrite Hr.
  apply layout_iter_AddColumn. congruence.
Qed.

(** X3: a conversion that returns moves the layout cursor as one call of
    [AddColumn] per rectangle and per text does, whatever the elements are;
    the sizes of the grid and of the page stay as they were. *)
Theorem ConvertSVGToPDF_cursor
  (ParseFloat : string -> float * option string)
  (p p' : PDF) (path : string) (svgData : SVG) (err : option string) :
  snd (ConvertSVGToPDF ParseFloat p path (Decoded svgData))
    = Returns (p', err) ->
  layout p' =
  layout (Nat.iter (length (SVG_Rects svgData) + length (SVG_Texts svgData))
                   AddColumn p).
Proof.
  cbn [ConvertSVGToPDF snd]. intros H.
  destruct (convert_decoded ParseFloat p svgData) as [q|msg] eqn:E;
    [|discriminate H].
  cbn [bind] in H. apply Returns_inj in H.
  apply (f_equal fst) in H. cbn [fst] in H. subst q.
  exact (convert_decoded_layout ParseFloat p p' svgData E).
Qed.

Lemma ConvertSVGToPDF_cursor_witness :
  layout sample_doc = layout (AddColumn (AddColumn fresh)) /\
  currentX sample_doc = 300%float /\ currentY sample_doc = 0%float.
Proof.
  assert (E : snd (ConvertSVGToPDF ParseFloat_digits fresh "in.svg"
                     (Decoded sample_svg))
              = Returns (sample_doc, None)) by (vm_compute; reflexivity).
  pose proof (ConvertSVGToPDF_cursor ParseFloat_digits fresh sample_doc
                "in.svg" sample_svg None E) as H.
  split; [exact H|]. split; reflexivity.
Defined.

Lemma layout_step_grid (y : float) :
  layout_step (0, y, 150, 50, 595)%float = (150, y, 150, 50, 595)%float /\
  layout_step (150, y, 150, 50, 595)%float = (300, y, 150, 50, 595)%float /\
  layout_step (300, y, 150, 50, 595)%float
    = (0, y + 50, 150, 50, 595)%float.
Proof. repeat split. Qed.

Lemma cursor_in_grid_layout (p q : PDF) :
  layout p = layout q -> cursor_in_grid q -> cursor_in_grid p.
Proof.
  unfold layout, cursor_in_grid. intros H.
  injection H as -> _ -> -> ->. tauto.
Qed.

Lemma cursor_in_grid_AddColumn (p : PDF) :
  cursor_in_grid p -> cursor_in_grid (AddColumn p).
Proof.
  intros (Hc & Hr & Hw & Hx).
  pose proof (layout_AddColumn_step p) as H.
  unfold layout in H at 2. rewrite Hc, Hr, Hw in H.
  destruct (layout_step_grid (currentY p)) as (H0 & H1 & H2).
  unfold layout, cursor_in_grid.
  destruct Hx as [Hx|[Hx|Hx]]; rewrite Hx in H;
    rewrite ?H0, ?H1, ?H2 in H; unfold layout in H;
    injection H as -> _ -> -> ->; tauto.
Qed.

Lemma cursor_in_grid_iter (n : nat) (p : PDF) :
  cursor_in_grid p -> cursor_in_grid (Nat.iter n AddColumn p).
Proof.
  intros H. induction n as [|n IH]; [exact H|].
  rewrite Nat.iter_succ. now apply cursor_in_grid_AddColumn.
Qed.

(** X4: in every document built through the package the grid keeps the
    sizes of [NewPDF] and the cursor stands at 0, 150 or 300 points from the
    left: a column that starts at the cursor always fits the page, and the
    cursor never reaches the third column, which would end at 600 points. *)
Theorem built_cursor_in_grid (p : PDF) :
  built p ->
  cursor_in_grid p /\
  (pageWidth p <? currentX p + columnWidth p)%float = false.
Proof.
  intros Hb.
  assert (Hg : cursor_in_grid p).
  { induction Hb as [columns rows fnt size | p _ IH | p _ IH | p _ IH
                    | p x y text _ IH | p p' g x y w h _ IH E
                    | ParseFloat p p' path src err _ IH E].
    - repeat split. now left.
    - revert IH. now apply cursor_in_grid_layout.
    - destruct IH as (Hc & Hr & Hw & _). repeat split; try assumption.
      now left.
    - now apply cursor_in_grid_AddColumn.
    - revert IH. now apply cursor_in_grid_layout.
    - unfold RenderGradient in E.
      destruct (Gradient_Stops g); [discriminate|]. injection E as <-.
      revert IH. now apply cursor_in_grid_layout.
    - destruct src as [cause|cause|svgData]; cbn [ConvertSVGToPDF snd] in E.
      + injection E as <- _. exact IH.
      + injection E as <- _. exact IH.
      + destruct (convert_decoded ParseFloat p svgData) as [q|msg] eqn:Eq;
          [|discriminate].
        cbn [bind] in E. injection E as <- _.
        apply convert_decoded_layout in Eq.
        apply (cursor_in_grid_layout _ _ Eq).
        now apply cursor_in_grid_iter. }
  split; [exact Hg|].
  destruct Hg as (Hc & _ & Hw & Hx).
  rewrite Hc, Hw.
  destruct Hx as [-> | [-> | ->]]; reflexivity.
Qed.

Lemma built_cursor_in_grid_witness :
  cursor_in_grid sample_doc /\
  (pageWidth sample_doc <? currentX sample_doc + columnWidth sample_doc)%float
    = false.
Proof. exact (built_cursor_in_grid sample_doc built_sample_doc). Defined.

(** X5: from the start of a row the third call of [AddColumn] opens the next
    row: the cursor is back at the left and one row height further down. *)
Theorem AddColumn_third_opens_row (p : PDF) :
  cursor_in_grid p ->
  currentX p = 0%float ->
  layout (AddColumn (AddColumn (AddColumn p)))
    = (0, currentY p + 50, 150, 50, 595)%float
  /\ layout (AddColumn (AddColumn p))
    = (300, currentY p, 150, 50, 595)%float.
Proof.
  intros (Hc & Hr & Hw & _) Hx.
  destruct (layout_step_grid (currentY p)) as (H0 & H1 & H2).
  assert (Hl : layout p = (0, currentY p, 150, 50, 595)%float).
  { unfold layout. now rewrite Hx, Hc, Hr, Hw. }
  rewrite !layout_AddColumn_step, Hl, H0, H1, H2. now split.
Qed.

Lemma AddColumn_third_opens_row_witness :
  layout (AddColumn (AddColumn (AddColumn fresh)))
    = (0, 50, 150, 50, 595)%float.
Proof.
  assert (Hg : cursor_in_grid fresh) by (repeat split; now left).
  destruct (AddColumn_third_opens_row fresh Hg eq_refl) as [H _].
  exact H.
Defined.

(** ** What a conversion reads *)

Lemma convert_decoded_frame
  (ParseFloat : string -> float * option string)
  (p p' : PDF) (svgData : SVG) :
  convert_decoded ParseFloat p svgData = Returns p' ->
  frame p' =
  frame (AddPage (set_scale p
           (pageWidth p / fst (svg_size ParseFloat svgData))
           (pageHeight p / snd (svg_size ParseFloat svgData)))).
Proof.
  unfold convert_decoded. fold (svg_size ParseFloat svgData).
  destruct (svg_size ParseFloat svgData) as [svgWidth svgHeight].
  cbn [fst snd]. set (p0 := AddPage _). clearbody p0.
  destruct (gradients_loop p0 (SVG_Gradients svgData)) as [p1|msg] eqn:Eg;
    [|discriminate].
  cbn [bind]. apply gradients_loop_returns in Eg as (_ & Hf1 & _).
  pose proof (rects_loop_spec (SVG_Rects svgData) p1 []) as Hr.
  destruct (rects_loop p1 [] (SVG_Rects svgData)) as [p2 stream].
  destruct Hr as (Hf2 & _ & _).
  destruct (texts_loop_spec (SVG_Texts svgData) p2) as (Hf3 & _).
  intros H. injection H as <-.
  rewrite frame_set_content. congruence.
Qed.

Lemma frame_AddPage_set_scale (p q : PDF) (sx sy : float) :
  frame p = frame q ->
  frame (AddPage (set_scale p sx sy)) = frame (AddPage (set_scale q sx sy)).
Proof.
  unfold frame, AddPage.
  cbn [pages pageCount pageWidth pageHeight scaleX scaleY columnWidth
       rowHeight maxColumns maxRows font fontSize set_content set_pages
       set_scale].
  intros H. injection H as -> -> -> -> _ _ -> -> -> -> -> ->. reflexivity.
Qed.

Lemma rects_entry_frame (p q : PDF) (rs : list Rect) :
  frame p = frame q -> rects_entry p rs = rects_entry q rs.
Proof.
  intros H. unfold rects_entry. f_equal.
  apply flat_map_ext. intros r. now apply rect_lines_frame.
Qed.

(** X6: the layout cursor takes no part in the drawing.  Two documents that
    differ in their cursor only get the same new content and the same pages
    and scale factors from the conversion of one drawing. *)
Theorem ConvertSVGToPDF_ignores_cursor
  (ParseFloat : string -> float * option string)
  (p q p' : PDF) (svgData : SVG) :
  frame p = frame q -> content p = content q ->
  convert_decoded ParseFloat p svgData = Returns p' ->
  exists q',
    convert_decoded ParseFloat q svgData = Returns q'
    /\ frame q' = frame p' /\ content q' = content p'.
Proof.
  intros Hf Hc Hp.
  pose proof (convert_decoded_frame _ _ _ _ Hp) as Hfp.
  apply convert_decoded_returns in Hp
    as (Hall & _ & _ & _ & _ & _ & _ & _ & Hcp).
  destruct (convert_decoded_total ParseFloat q svgData Hall) as [q' Hq].
  exists q'. split; [exact Hq|].
  pose proof (convert_decoded_frame _ _ _ _ Hq) as Hfq.
  apply convert_decoded_returns in Hq
    as (_ & _ & _ & _ & _ & _ & _ & _ & Hcq).
  assert (Hpq : frame q' = frame p').
  { rewrite Hfq, Hfp.
    assert (Hw : pageWidth p = pageWidth q /\ pageHeight p = pageHeight q).
    { unfold frame in Hf. injection Hf as _ _ -> -> _ _ _ _ _ _ _ _.
      now split. }
    destruct Hw as [-> ->]. symmetry. now apply frame_AddPage_set_scale. }
  split; [exact Hpq|].
  rewrite Hcq, Hcp, Hc. do 3 f_equal. f_equal.
  - apply map_ext. intros t. now apply text_entry_frame.
  - f_equal. now apply rects_entry_frame.
Qed.

Lemma ConvertSVGToPDF_ignores_cursor_witness :
  exists q',
    convert_decoded ParseFloat_digits (AddRow (AddColumn fresh)) sample_svg
      = Returns q'
    /\ frame q' = frame sample_doc /\ content q' = content sample_doc.
Proof.
  assert (E : convert_decoded ParseFloat_digits fresh sample_svg
              = Returns sample_doc) by (vm_compute; reflexivity).
  apply (ConvertSVGToPDF_ignores_cursor ParseFloat_digits fresh
           (AddRow (AddColumn fresh)) sample_doc sample_svg);
    [reflexivity|reflexivity|exact E].
Defined.

(** X7: on a decoded drawing [ConvertSVGToPDF] returns exactly when every
    gradient has a stop; it then reports no error, counts one page more and
    has appended the entry of the page, three lines per gradient, one entry
    per text and the entry of the rectangles. *)
Theorem ConvertSVGToPDF_returns_iff
  (ParseFloat : string -> float * option string)
  (p : PDF) (path : string) (svgData : SVG) :
  (Forall (fun g => Gradient_Stops g <> []) (SVG_Gradients svgData) <->
   exists p',
     snd (ConvertSVGToPDF ParseFloat p path (Decoded svgData))
       = Returns (p', None))
  /\ (forall p' err,
        snd (ConvertSVGToPDF ParseFloat p path (Decoded svgData))
          = Returns (p', err) ->
        err = None
        /\ pageCount p' = int64 (pageCount p + 1)
        /\ length (content p') =
           (length (content p) + 2
            + 3 * length (SVG_Gradients svgData)
            + length (SVG_Texts svgData))%nat).
Proof.
  cbn [ConvertSVGToPDF snd]. split; [split|].
  - intros Hall.
    destruct (convert_decoded_total ParseFloat p svgData Hall) as [p' ->].
    now exists p'.
  - intros [p' H].
    destruct (convert_decoded ParseFloat p svgData) as [q|msg] eqn:E;
      [|discriminate].
    now apply convert_decoded_returns in E.
  - intros p' err H.
    destruct (convert_decoded ParseFloat p svgData) as [q|msg] eqn:E;
      [|discriminate].
    cbn [bind] in H. injection H as <- <-.
    apply convert_decoded_returns in E
      as (_ & Hn & _ & _ & _ & _ & _ & _ & Hc).
    split; [reflexivity|]. split; [exact Hn|].
    rewrite Hc, !length_app, length_map.
    rewrite (flat_map_length_const _ 3%nat) by reflexivity.
    cbn [length]. lia.
Qed.

Lemma ConvertSVGToPDF_returns_iff_witness :
  (exists p',
     snd (ConvertSVGToPDF ParseFloat_digits fresh "in.svg"
            (Decoded gradient_svg)) = Returns (p', None))
  /\ ~ (exists p',
     snd (ConvertSVGToPDF ParseFloat_digits fresh "in.svg"
            (Decoded stopless_svg)) = Returns (p', None)).
Proof.
  split.
  - apply (ConvertSVGToPDF_returns_iff ParseFloat_digits fresh "in.svg"
             gradient_svg).
    repeat constructor. discriminate.
  - intros H.
    apply (ConvertSVGToPDF_returns_iff ParseFloat_digits fresh "in.svg"
             stopless_svg) in H.
    inversion H as [|g gs _ Hgs]. inversion Hgs as [|g' gs' Hg' _].
    now apply Hg'.
Defined.

Lemma cons_eq_inv {A : Type} (a b : A) (l l' : list A) :
  a :: l = b :: l' -> a = b /\ l = l'.
Proof. intros H. injection H as -> ->. now split. Qed.

Lemma RenderGradient_has_stop (p : PDF) (g1 g2 : Gradient) (x y w h : float) :
  has_stop g1 = has_stop g2 ->
  RenderGradient p g1 x y w h = RenderGradient p g2 x y w h.
Proof.
  unfold has_stop, RenderGradient.
  destruct (Gradient_Stops g1), (Gradient_Stops g2);
    intros H; try discriminate H; reflexivity.
Qed.

Lemma gradients_loop_has_stop (gs1 gs2 : list Gradient) (p : PDF) :
  map has_stop gs1 = map has_stop gs2 ->
  gradients_loop p gs1 = gradients_loop p gs2.
Proof.
  revert gs2 p.
  induction gs1 as [|g1 gs1 IH]; intros [|g2 gs2] p H;
    try discriminate H; [reflexivity|].
  cbn [map] in H. apply cons_eq_inv in H as [Hg Hgs]. cbn [gradients_loop].
  rewrite (RenderGradient_has_stop p g1 g2 _ _ _ _ Hg).
  destruct (RenderGradient p g2 100 100 200 50) as [q|msg]; [|reflexivity].
  cbn [bind]. now apply IH.
Qed.

Lemma rect_lines_geometry (p : PDF) (r1 r2 : Rect) :
  rect_geometry r1 = rect_geometry r2 -> rect_lines p r1 = rect_lines p r2.
Proof.
  unfold rect_geometry, rect_lines. intros H.
  injection H as -> -> -> ->. reflexivity.
Qed.

Lemma rects_loop_geometry (rs1 rs2 : list Rect) (p : PDF)
  (stream : list string) :
  map rect_geometry rs1 = map rect_geometry rs2 ->
  rects_loop p stream rs1 = rects_loop p stream rs2.
Proof.
  revert rs2 p stream.
  induction rs1 as [|r1 rs1 IH]; intros [|r2 rs2] p stream H;
    try discriminate H; [reflexivity|].
  cbn [map] in H. apply cons_eq_inv in H as [Hr Hrs]. cbn [rects_loop].
  rewrite (rect_lines_geometry _ r1 r2 Hr). now apply IH.
Qed.

Lemma texts_loop_shown (ts1 ts2 : list Text) (p : PDF) :
  map text_shown ts1 = map text_shown ts2 ->
  texts_loop p ts1 = texts_loop p ts2.
Proof.
  revert ts2 p.
  induction ts1 as [|t1 ts1 IH]; intros [|t2 ts2] p H;
    try discriminate H; [reflexivity|].
  cbn [map] in H. apply cons_eq_inv in H as [Ht Hts].
  rewrite !texts_loop_step.
  assert (He : text_entry p t1 = text_entry p t2).
  { unfold text_shown in Ht. injection Ht as Hx Hy Hc.
    unfold text_entry. now rewrite Hx, Hy, Hc. }
  rewrite He. now apply IH.
Qed.

(** X8: a conversion reads the two dimensions of the drawing, the position
    and size of every rectangle, the position and content of every text, and
    of every gradient only whether it has a stop.  The stroke of a rectangle,
    the font and size attributes of a text, the identifier, the end points
    and the stops' colours and offsets of a gradient, and the paths do not
    change its result. *)
Theorem ConvertSVGToPDF_reads_only
  (ParseFloat : string -> float * option string)
  (p : PDF) (path : string) (svg1 svg2 : SVG) :
  SVG_Width svg1 = SVG_Width svg2 ->
  SVG_Height svg1 = SVG_Height svg2 ->
  map rect_geometry (SVG_Rects svg1) = map rect_geometry (SVG_Rects svg2) ->
  map text_shown (SVG_Texts svg1) = map text_shown (SVG_Texts svg2) ->
  map has_stop (SVG_Gradients svg1) = map has_stop (SVG_Gradients svg2) ->
  ConvertSVGToPDF ParseFloat p path (Decoded svg1)
    = ConvertSVGToPDF ParseFloat p path (Decoded svg2).
Proof.
  intros Hw Hh Hr Ht Hg. cbn [ConvertSVGToPDF]. f_equal. f_equal.
  unfold convert_decoded. rewrite Hw, Hh.
  destruct (if _ : bool then _ else _) as [svgWidth svgHeight].
  rewrite (gradients_loop_has_stop _ _ _ Hg).
  destruct (gradients_loop _ (SVG_Gradients svg2)) as [p1|msg];
    [|reflexivity].
  cbn [bind].
  rewrite (rects_loop_geometry _ _ p1 [] Hr).
  destruct (rects_loop p1 [] (SVG_Rects svg2)) as [p2 stream].
  now rewrite (texts_loop_shown _ _ p2 Ht).
Qed.

Lemma ConvertSVGToPDF_reads_only_witness :
  ConvertSVGToPDF ParseFloat_digits fresh "in.svg" (Decoded gradient_svg)
  = ConvertSVGToPDF ParseFloat_digits fresh "in.svg"
      (Decoded
         {| SVG_Width := "400"; SVG_Height := "150";
            SVG_Rects :=
              [ {| Rect_X := 0; Rect_Y := 0; Rect_Width := 100;
                   Rect_Height := 50; Rect_Stroke := "red" |} ];
            SVG_Texts :=
              [ {| Text_X := 10; Text_Y := 10; Text_Content := "Hi(there)";
                   Text_Font := "Courier"; Text_Size := 30 |} ];
            SVG_Paths := [ {| Path_D := "M 0 0 L 10 10" |} ];
            SVG_Gradients :=
              [ {| Gradient_ID := "other"; Gradient_X1 := 1;
                   Gradient_Y1 := 1; Gradient_X2 := 0; Gradient_Y2 := 0;
                   Gradient_Stops :=
                     [ {| Stop_Offset := "50%"; Stop_Color := "blue" |};
                       {| Stop_Offset := "100%";
                          Stop_Color := "green" |} ] |} ] |}).
Proof.
  apply ConvertSVGToPDF_reads_only; reflexivity.
Defined.

(** ** Text operators *)

Lemma is_special_cases (c : ascii) :
  is_special c = true -> c = backslash \/ c = lparen \/ c = rparen.
Proof.
  unfold is_special. intros H.
  apply orb_true_iff in H as [H|H]; [apply orb_true_iff in H as [H|H]|];
    apply Ascii.eqb_eq in H; auto.
Qed.

Lemma is_special_not_eol (c : ascii) :
  is_special c = true -> Ascii.eqb c CR = false /\ Ascii.eqb c LF = false.
Proof.
  intros H. destruct (is_special_cases c H) as [-> | [-> | ->]];
    split; reflexivity.
Qed.

Lemma read_escaped_byte (depth : nat) (c : ascii) (s : string) :
  is_special c = true ->
  read_literal_from depth LitEscape (String c s)
    = emit c (read_literal_from depth LitPlain s).
Proof.
  intros H. destruct (is_special_cases c H) as [-> | [-> | ->]]; reflexivity.
Qed.

(** The reader on an escaped text behind which the literal closes. *)
Lemma read_literal_from_escape_each (text rest : string) (after_cr : bool) :
  read_literal_from O (if after_cr then LitAfterCR else LitPlain)
                    (escape_each text ++ String rparen rest)
    = Some (eol_as_LF after_cr text, rest).
Proof.
  revert after_cr.
  induction text as [|c text IH]; intros after_cr.
  - destruct after_cr; reflexivity.
  - cbn [escape_each]. destruct (is_special c) eqn:Es.
    + cbn [append].
      assert (Hb : forall st, st = LitPlain \/ st = LitAfterCR ->
                read_literal_from O st
                  (String backslash
                     (String c (escape_each text ++ String rparen rest)))
                = read_literal_from O LitEscape
                    (String c (escape_each text ++ String rparen rest))).
      { intros st [-> | ->]; reflexivity. }
      rewrite Hb by (destruct after_cr; auto).
      rewrite (read_escaped_byte _ _ _ Es), (IH false).
      destruct (is_special_not_eol c Es) as [Hcr Hlf].
      cbn [eol_as_LF emit]. rewrite Hcr, Hlf, andb_false_r. reflexivity.
    + unfold is_special in Es.
      apply orb_false_elim in Es as [Es Er].
      apply orb_false_elim in Es as [Eb El].
      cbn [append eol_as_LF].
      destruct (Ascii.eqb c CR) eqn:Ecr.
      * assert (Elf : Ascii.eqb c LF = false).
        { apply Ascii.eqb_eq in Ecr. subst c. reflexivity. }
        destruct after_cr; cbn [read_literal_from];
          rewrite ?Elf, Eb, El, Er, Ecr, (IH true); reflexivity.
      * destruct after_cr; cbn [read_literal_from andb].
        -- destruct (Ascii.eqb c LF) eqn:Elf.
           ++ apply (IH false).
           ++ rewrite Eb, El, Er, Ecr, (IH false). reflexivity.
        -- rewrite Eb, El, Er, Ecr, (IH false). reflexivity.
Qed.

Lemma eol_as_LF_plain (text : string) :
  has_CR text = false -> eol_as_LF false text = text.
Proof.
  induction text as [|c text IH]; cbn [has_CR eol_as_LF]; [reflexivity|].
  intros H. apply orb_false_elim in H as [Hc Ht].
  now rewrite Hc, IH.
Qed.

(** X9: [AddTextWithUnicode] appends one entry and changes no other field.
    A reader of PDF literal strings takes the operand of the show operator
    in it to its closing parenthesis, whatever bytes the text holds, so that
    no text can end the literal early or add an operator, and decodes it to
    the text with every end-of-line marker, CR or CR LF, read as one LF:
    to exactly the text given when it holds no carriage return. *)
Theorem AddTextWithUnicode_shows_text
  (p : PDF) (x y : float) (text : string) :
  let show := "(" ++ escapeText text ++ ") Tj" in
  content (AddTextWithUnicode p x y text) =
    (content p ++
     [Join [ "BT";
             "/F1 " ++ Sprintf_2f (fontSize p) ++ " Tf";
             Sprintf_2f x ++ " " ++ Sprintf_2f y ++ " Td";
             show;
             "ET" ]%string newline])%list
  /\ read_literal show = Some (eol_as_LF false text, " Tj")
  /\ (has_CR text = false -> read_literal show = Some (text, " Tj"))
  /\ frame (AddTextWithUnicode p x y text) = frame p
  /\ layout (AddTextWithUnicode p x y text) = layout p.
Proof.
  cbv zeta.
  assert (Hr : read_literal ("(" ++ escapeText text ++ ") Tj")
               = Some (eol_as_LF false text, " Tj")).
  { rewrite escapeText_each.
    change (read_literal ("(" ++ escape_each text ++ ") Tj"))
      with (read_literal_from O LitPlain
              (escape_each text ++ String rparen " Tj")).
    exact (read_literal_from_escape_each text " Tj" false). }
  split; [reflexivity|]. split; [exact Hr|].
  split; [|split; reflexivity].
  intros Hcr. now rewrite Hr, (eol_as_LF_plain text Hcr).
Qed.

Lemma AddTextWithUnicode_shows_text_witness :
  has_CR "Hi(there)" = false /\
  read_literal ("(" ++ escapeText "Hi(there)" ++ ") Tj")
    = Some ("Hi(there)", " Tj").
Proof.
  split; [reflexivity|].
  apply (AddTextWithUnicode_shows_text fresh 0 0 "Hi(there)"). reflexivity.
Defined.

(** A carriage return in the text is written as it is and reads back as a
    line feed. *)
Example carriage_return_is_read_as_line_feed :
  read_literal ("(" ++ escapeText (String "a" (String CR (String "b" "")))
                ++ ") Tj")
    = Some (String "a" (String LF (String "b" "")), " Tj").
Proof. reflexivity. Qed.

(** The reader on escapes that [escapeText] does not write. *)
Example read_literal_escapes :
  read_literal "(a\053b\nc\(d(e)f\)) Tj"
    = Some (String "a" (String "+" (String "b" (String LF "c(d(e)f)"))),
            " Tj").
Proof. reflexivity. Qed.

(** ** The algebra of escaping *)

Lemma escape_each_app (s1 s2 : string) :
  escape_each (s1 ++ s2) = escape_each s1 ++ escape_each s2.
Proof.
  induction s1 as [|c s1 IH]; cbn [escape_each append]; [reflexivity|].
  destruct (is_special c); cbn [append]; now rewrite IH.
Qed.

Lemma escape_each_length (s : string) :
  String.length (escape_each s) = (String.length s + count_special s)%nat.
Proof.
  induction s as [|c s IH]; cbn [escape_each count_special String.length];
    [reflexivity|].
  destruct (is_special c); cbn [String.length]; lia.
Qed.

Lemma count_special_escape_each (s : string) :
  count_special (escape_each s) = (2 * count_special s)%nat.
Proof.
  induction s as [|c s IH]; cbn [escape_each count_special]; [reflexivity|].
  destruct (is_special c) eqn:Es; cbn [count_special].
  - rewrite Es. change (is_special backslash) with true. cbv iota. lia.
  - now rewrite Es.
Qed.

Lemma count_special_zero (s : string) :
  count_special s = O <-> has_special s = false.
Proof.
  induction s as [|c s IH]; cbn [count_special has_special]; [tauto|].
  destruct (is_special c); cbn [orb]; [split; discriminate|exact IH].
Qed.

(** X10: [escapeText] works byte by byte: the escape of a concatenation is
    the concatenation of the escapes; the result is longer than the text by
    the number of backslashes and parentheses in it; two texts with the same
    escape are the same text; and escaping a second time changes the result
    exactly when the text has one of the three bytes. *)
Theorem escapeText_algebra (s t : string) :
  escapeText (s ++ t) = escapeText s ++ escapeText t
  /\ String.length (escapeText s) = (String.length s + count_special s)%nat
  /\ (escapeText s = escapeText t -> s = t)
  /\ (escapeText (escapeText s) = escapeText s <-> has_special s = false).
Proof.
  rewrite !escapeText_each. repeat split.
  - apply escape_each_app.
  - apply escape_each_length.
  - intros H. apply (f_equal (unescape false)) in H.
    now rewrite !unescape_escape_each in H.
  - intros H. apply (f_equal String.length) in H.
    rewrite !escape_each_length, count_special_escape_each in H.
    apply count_special_zero. lia.
  - intros H. apply escape_each_plain.
    apply count_special_zero. rewrite count_special_escape_each.
    apply count_special_zero in H. lia.
Qed.

Lemma escapeText_algebra_witness :
  escapeText "plain" = escapeText "plain" /\
  has_special "plain" = false /\
  escapeText (escapeText "plain") = escapeText "plain" /\
  escapeText (escapeText "a(b") <> escapeText "a(b".
Proof.
  split; [reflexivity|]. split; [reflexivity|].
  split.
  - apply (escapeText_algebra "plain" "plain"). reflexivity.
  - intros H. apply (escapeText_algebra "a(b" "") in H. discriminate H.
Defined.

(** ** The objects of the pages in the file *)

Lemma nth_error_flat_map_const {A B : Type} (f : A -> list B) (n : nat)
  (l : list A) (k j : nat) (a : A) :
  (forall x, length (f x) = n) ->
  nth_error l k = Some a -> (j < n)%nat ->
  nth_error (flat_map f l) (n * k + j) = nth_error (f a) j.
Proof.
  intros Hf. revert k.
  induction l as [|x l IH]; intros k Hk Hj.
  - destruct k; discriminate Hk.
  - cbn [flat_map]. destruct k as [|k].
    + cbn [nth_error] in Hk. injection Hk as ->.
      rewrite Nat.mul_0_r, Nat.add_0_l.
      apply nth_error_app1. now rewrite Hf.
    + cbn [nth_error] in Hk.
      rewrite nth_error_app2 by (rewrite Hf; lia).
      rewrite Hf.
      replace (n * S k + j - n)%nat with (n * k + j)%nat by lia.
      now apply IH.
Qed.

Lemma int_range_nth (lo n : Z) (k : nat) :
  (k < Z.to_nat n)%nat ->
  nth_error (int_range lo n) k = Some (lo + Z.of_nat k).
Proof.
  intros Hk. unfold int_range.
  rewrite nth_error_map, nth_error_seq.
  destruct (Nat.ltb_spec k (Z.to_nat n)); [reflexivity|lia].
Qed.

Lemma objects_loop_in_range (p : PDF) (ixs : list Z)
  (pdfContent out : list string) :
  objects_loop p pdfContent ixs = Returns out ->
  Forall (fun i => exists c, nth_error (content p) (Z.to_nat i) = Some c) ixs.
Proof.
  revert pdfContent.
  induction ixs as [|i ixs IH]; intros pdfContent; cbn [objects_loop].
  - constructor.
  - destruct (nth_error (content p) (Z.to_nat i)) as [c|] eqn:E;
      [|discriminate].
    intros H. constructor; [now exists c|]. now apply IH in H.
Qed.

(** X11: in the lines that [Save] writes, the object of page [i] has the
    number [4 + i*2] and names [5 + i*2] as its contents; the object that
    follows has that number, holds entry [i] of the content list as its
    stream and declares the number of bytes of that entry as its length. *)
Theorem Save_page_objects (p : PDF) (pdfContent : list string) (i : Z) :
  0 <= pageCount p < 2 ^ 60 ->
  Save_pdfContent p = Returns pdfContent ->
  0 <= i < pageCount p ->
  let base := (24 + Z.to_nat (pageCount p) + 21 * Z.to_nat i)%nat in
  nth_error pdfContent base = Some (Itoa (4 + i * 2) ++ " 0 obj")
  /\ nth_error pdfContent (base + 10)
     = Some ("/Contents " ++ Itoa (5 + i * 2) ++ " 0 R")
  /\ nth_error pdfContent (base + 13) = Some (Itoa (5 + i * 2) ++ " 0 obj")
  /\ exists contentStream,
       nth_error (content p) (Z.to_nat i) = Some contentStream
       /\ nth_error pdfContent (base + 15)
          = Some ("/Length " ++ Itoa (len contentStream))
       /\ nth_error pdfContent (base + 17) = Some "stream"
       /\ nth_error pdfContent (base + 18) = Some contentStream
       /\ nth_error pdfContent (base + 19) = Some "endstream".
Proof.
  intros Hn Hs Hi base.
  assert (Hc : exists c, nth_error (content p) (Z.to_nat i) = Some c).
  { unfold Save_pdfContent in Hs. apply objects_loop_in_range in Hs.
    rewrite Forall_forall in Hs. apply Hs. apply int_range_In. lia. }
  destruct Hc as [c Hc].
  apply Save_pdfContent_inv in Hs. subst pdfContent.
  assert (Hk : nth_error (int_range 0 (pageCount p)) (Z.to_nat i) = Some i).
  { rewrite int_range_nth by lia. f_equal. lia. }
  assert (Hnth : forall j, (j < 21)%nat ->
            nth_error (preamble_lines p ++
                       flat_map (object_lines p) (int_range 0 (pageCount p)))
                      (base + j)
            = nth_error (object_lines p i) j).
  { intros j Hj. subst base.
    rewrite nth_error_app2 by (rewrite preamble_lines_length; lia).
    rewrite preamble_lines_length.
    replace (24 + Z.to_nat (pageCount p) + 21 * Z.to_nat i + j
             - (24 + Z.to_nat (pageCount p)))%nat
      with (21 * Z.to_nat i + j)%nat by lia.
    apply (nth_error_flat_map_const _ 21%nat); try assumption.
    apply object_lines_length. }
  replace base with (base + 0)%nat at 1 by lia.
  rewrite !Hnth by lia.
  unfold object_lines, page_lines, stream_lines.
  rewrite (nth_error_nth _ _ _ Hc).
  cbn [app nth_error]. int64_norm.
  repeat split. exists c. repeat split. exact Hc.
Qed.

Lemma Save_page_objects_witness :
  exists pdfContent,
    Save_pdfContent two_page_doc = Returns pdfContent
    /\ nth_error pdfContent 47 = Some "6 0 obj"
    /\ nth_error pdfContent 57 = Some "/Contents 7 0 R"
    /\ nth_error pdfContent 60 = Some "7 0 obj"
    /\ nth_error pdfContent 62 = Some "/Length 52"
    /\ nth_error pdfContent 65 = nth_error (content two_page_doc) 1.
Proof.
  destruct (Save_pdfContent two_page_doc) as [pc|msg] eqn:E;
    [|vm_compute in E; discriminate E].
  exists pc. split; [reflexivity|].
  assert (Hn : 0 <= pageCount two_page_doc < 2 ^ 60)
    by (vm_compute; split; congruence).
  assert (Hi : 0 <= 1 < pageCount two_page_doc)
    by (vm_compute; split; congruence).
  destruct (Save_page_objects two_page_doc pc 1 Hn E Hi)
    as (H0 & H10 & H13 & c & Hc & H15 & _ & H18 & _).
  change (24 + Z.to_nat (pageCount two_page_doc) + 21 * Z.to_nat 1)%nat
    with 47%nat in *.
  change (Z.to_nat 1) with 1%nat in Hc.
  cbn [Nat.add] in *.
  split; [exact H0|]. split; [exact H10|]. split; [exact H13|].
  split; [|now rewrite Hc].
  rewrite H15. vm_compute in Hc. injection Hc as <-. reflexivity.
Defined.

(** ** The frame of the file *)

Lemma Join_cons2 (a b : string) (ls : list string) (sep : string) :
  Join (a :: b :: ls) sep = a ++ sep ++ Join (b :: ls) sep.
Proof. reflexivity. Qed.

(** X12: every file that [Save] writes starts with the header line, the
    binary marker and the catalog as object 1, and ends with the trailer
    whose root is object 1, the keyword [startxref], a number, and the end
    marker, written with two percent signs. *)
Theorem Save_file_frame (p : PDF) (data : string) :
  Save_data p = Some data ->
  exists body size offset,
    data =
      "%PDF-1.4" ++ newline ++ binary_marker ++ newline ++
      "1 0 obj" ++ newline ++ "<<" ++ newline ++ "/Type /Catalog" ++ newline ++
      "/Pages 2 0 R" ++ newline ++ ">>" ++ newline ++ "endobj" ++ newline ++
      body ++ newline ++
      "trailer" ++ newline ++ "<<" ++ newline ++
      "/Size " ++ Itoa size ++ newline ++ "/Root 1 0 R" ++ newline ++
      ">>" ++ newline ++ "startxref" ++ newline ++ Itoa offset ++ newline ++
      "%%EOF".
Proof.
  unfold Save_data, Save_parts.
  destruct (Save_pdfContent p) as [pc|msg] eqn:Epc; [|discriminate].
  cbn [bind].
  match goal with
  | |- context [xref_loop pc ?x ?o ?r] =>
      destruct (xref_loop pc x o r) as [[xref off]|msg] eqn:E
  end; [|discriminate].
  cbn [bind]. intros H. injection H as <-.
  apply Save_pdfContent_inv in Epc.
  destruct (preamble_lines_start p) as [rest Hpre].
  rewrite Hpre in Epc. cbn [app] in Epc.
  set (tail := (rest ++ _)%list) in Epc. clearbody tail. subst pc.
  exists (Join ("2 0 obj" :: tail) newline ++ newline ++ Join xref newline),
    (xref_count p), off.
  unfold finalContent, trailer_lines.
  rewrite !Join_cons2. change (Join ["%%EOF"] newline) with "%%EOF".
  rewrite !string_app_assoc. reflexivity.
Qed.

Lemma Save_file_frame_witness :
  exists data body size offset,
    Save_data fresh = Some data /\
    data =
      "%PDF-1.4" ++ newline ++ binary_marker ++ newline ++
      "1 0 obj" ++ newline ++ "<<" ++ newline ++ "/Type /Catalog" ++ newline ++
      "/Pages 2 0 R" ++ newline ++ ">>" ++ newline ++ "endobj" ++ newline ++
      body ++ newline ++
      "trailer" ++ newline ++ "<<" ++ newline ++
      "/Size " ++ Itoa size ++ newline ++ "/Root 1 0 R" ++ newline ++
      ">>" ++ newline ++ "startxref" ++ newline ++ Itoa offset ++ newline ++
      "%%EOF".
Proof.
  destruct (Save_data fresh) as [data|] eqn:E;
    [|vm_compute in E; discriminate E].
  destruct (Save_file_frame fresh data E) as (body & size & offset & H).
  exists data, body, size, offset. split; [reflexivity|exact H].
Defined.

(** ** What the configuration changes *)









(** ** Dimensions and empty drawings *)

(** X14: the declared dimensions are used only when both are present.  When
    the width or the height is missing, both factors come from the defaults
    400 and 150, also the factor of the dimension that is declared; when both
    are present, the factors come from the values that [ParseFloat] returns
    for them. *)
Theorem scale_needs_both_dimensions
  (ParseFloat : string -> float * option string)
  (p p' : PDF) (svgData : SVG) :
  convert_decoded ParseFloat p svgData = Returns p' ->
  (SVG_Width svgData = "" \/ SVG_Height svgData = "" ->
   scaleX p' = (pageWidth p / 400)%float /\
   scaleY p' = (pageHeight p / 150)%float)
  /\ (SVG_Width svgData <> "" -> SVG_Height svgData <> "" ->
      scaleX p' = (pageWidth p / fst (ParseFloat (SVG_Width svgData)))%float /\
      scaleY p' = (pageHeight p / fst (ParseFloat (SVG_Height svgData)))%float).
Proof.
  intros H. split.
  - intros Hd. exact (scale_default ParseFloat p p' svgData Hd H).
  - intros Hw Hh. exact (scale_declared ParseFloat p p' svgData Hw Hh H).
Qed.

Lemma scale_needs_both_dimensions_witness :
  exists p',
    convert_decoded ParseFloat_digits fresh width_only_svg = Returns p' /\
    scaleX p' = (595 / 400)%float /\ scaleY p' = (842 / 150)%float /\
    scaleX sample_doc = (595 / fst (ParseFloat_digits "400"))%float.
Proof.
  destruct (convert_decoded_total ParseFloat_digits fresh width_only_svg)
    as [p' E]; [constructor|].
  exists p'. split; [exact E|].
  destruct (scale_needs_both_dimensions ParseFloat_digits fresh p'
              width_only_svg E) as [Hdefault _].
  destruct (Hdefault (or_intror eq_refl)) as [Hx Hy].
  split; [exact Hx|]. split; [exact Hy|].
  assert (Es : convert_decoded ParseFloat_digits fresh sample_svg
               = Returns sample_doc) by (vm_compute; reflexivity).
  destruct (scale_needs_both_dimensions ParseFloat_digits fresh sample_doc
              sample_svg Es) as [_ Hdeclared].
  destruct Hdeclared as [Hsx _]; [discriminate|discriminate|exact Hsx].
Defined.

(** X15: the conversion of a drawing without rectangles, texts and gradients
    returns; it adds a page and appends two empty entries, the one of the
    page and the one of the rectangles, and leaves the cursor where it
    was. *)
Theorem ConvertSVGToPDF_empty_drawing
  (ParseFloat : string -> float * option string)
  (p : PDF) (svgData : SVG) :
  SVG_Rects svgData = [] -> SVG_Texts svgData = [] ->
  SVG_Gradients svgData = [] ->
  exists p',
    convert_decoded ParseFloat p svgData = Returns p'
    /\ content p' = (content p ++ [""; ""])%list
    /\ pageCount p' = int64 (pageCount p + 1)
    /\ layout p' = layout p.
Proof.
  intros Hr Ht Hg.
  destruct (convert_decoded_total ParseFloat p svgData) as [p' E].
  { rewrite Hg. constructor. }
  exists p'. split; [exact E|].
  pose proof (convert_decoded_layout _ _ _ _ E) as Hl.
  apply convert_decoded_returns in E
    as (_ & Hn & _ & _ & _ & _ & _ & _ & Hc).
  rewrite Hr, Ht in Hl. rewrite Hr, Ht, Hg in Hc.
  split; [exact Hc|]. split; [exact Hn|exact Hl].
Qed.

Lemma ConvertSVGToPDF_empty_drawing_witness :
  exists p',
    convert_decoded ParseFloat_digits fresh empty_svg = Returns p' /\
    content p' = [""; ""] /\ pageCount p' = 1.
Proof.
  destruct (ConvertSVGToPDF_empty_drawing ParseFloat_digits fresh empty_svg
              eq_refl eq_refl eq_refl) as (p' & E & Hc & Hn & _).
  exists p'. split; [exact E|]. split; [exact Hc|exact Hn].
Defined.

(** ** What the cross-reference loop records *)

Lemma bytes_of_lines_nonneg (ls : list string) : 0 <= bytes_of_lines ls.
Proof.
  induction ls as [|l ls IH]; cbn [bytes_of_lines]; [lia|].
  unfold len. lia.
Qed.

Lemma bytes_of_lines_app (l1 l2 : list string) :
  bytes_of_lines (l1 ++ l2) = bytes_of_lines l1 + bytes_of_lines l2.
Proof.
  induction l1 as [|l l1 IH]; cbn [app bytes_of_lines]; [lia|].
  rewrite IH. lia.
Qed.

Lemma bytes_of_lines_firstn_le (n : nat) (ls : list string) :
  bytes_of_lines (firstn n ls) <= bytes_of_lines ls.
Proof.
  rewrite <- (firstn_skipn n ls) at 2. rewrite bytes_of_lines_app.
  pose proof (bytes_of_lines_nonneg (skipn n ls)). lia.
Qed.

(** The lines [ls], each with its newline, take [bytes_of_lines ls] bytes. *)
Lemma bytes_of_lines_Join (ls : list string) :
  ls <> [] -> len (Join ls newline ++ newline) = bytes_of_lines ls.
Proof.
  unfold len, Join.
  induction ls as [|l ls IH]; [contradiction|]. intros _.
  destruct ls as [|l' ls].
  - cbn [String.concat bytes_of_lines]. unfold len.
    rewrite string_length_app. cbn [String.length newline]. lia.
  - change (String.concat newline (l :: l' :: ls))
      with (l ++ newline ++ String.concat newline (l' :: ls)).
    rewrite !string_app_assoc, string_length_app.
    change (bytes_of_lines (l :: l' :: ls))
      with (len l + 1 + bytes_of_lines (l' :: ls)).
    rewrite <- IH by discriminate. unfold len.
    rewrite (string_length_app newline). cbn [String.length newline]. lia.
Qed.

Lemma xref_loop_offsets (pdfContent : list string) (m : nat) :
  forall (k : nat) (xref : list string) (off : Z),
  (k + m <= length pdfContent)%nat ->
  0 <= off ->
  off + bytes_of_lines (firstn m (skipn k pdfContent)) < 2 ^ 63 ->
  xref_loop pdfContent xref off (int_range (Z.of_nat k) (Z.of_nat m))
  = Returns
      ((xref ++
        map (fun j => (Sprintf_010d
                         (off + bytes_of_lines
                                  (firstn j (skipn k pdfContent)))
                       ++ " 00000 n ")%string)
            (seq 0 m))%list,
       off + bytes_of_lines (firstn m (skipn k pdfContent))).
Proof.
  induction m as [|m IH]; intros k xref off Hk Hoff Hb.
  - cbn. rewrite app_nil_r. do 2 f_equal. lia.
  - rewrite int_range_cons by lia. cbn [xref_loop].
    rewrite Nat2Z.id.
    destruct (nth_error pdfContent k) as [line|] eqn:E;
      [|apply nth_error_None in E; lia].
    assert (Hs : skipn k pdfContent = line :: skipn (S k) pdfContent).
    { rewrite <- (firstn_skipn k pdfContent) in E at 1.
      rewrite nth_error_app2 in E by (rewrite length_firstn; lia).
      rewrite length_firstn, Nat.min_l, Nat.sub_diag in E by lia.
      destruct (skipn k pdfContent) as [|x rest] eqn:Ek; [discriminate|].
      cbn [nth_error] in E. injection E as ->. f_equal.
      change (S k) with (1 + k)%nat. rewrite <- skipn_skipn, Ek.
      reflexivity. }
    assert (Hf : forall j,
              bytes_of_lines (firstn (S j) (skipn k pdfContent))
              = len line + 1
                + bytes_of_lines (firstn j (skipn (S k) pdfContent))).
    { intros j. rewrite Hs. reflexivity. }
    rewrite Hf in Hb.
    pose proof (bytes_of_lines_nonneg (firstn m (skipn (S k) pdfContent))).
    assert (Hlen : len (Join [line] newline ++ newline) = len line + 1).
    { rewrite bytes_of_lines_Join by discriminate.
      cbn [bytes_of_lines]. lia. }
    rewrite Hlen.
    assert (Hline : 0 <= len line) by (unfold len; lia).
    rewrite int64_small by lia.
    replace (Z.of_nat k + 1) with (Z.of_nat (S k)) by lia.
    replace (Z.of_nat (S m) - 1) with (Z.of_nat m) by lia.
    rewrite IH by lia.
    f_equal. f_equal; [|rewrite Hf; lia].
    rewrite <- app_assoc. f_equal.
    cbn [seq map app]. f_equal.
    + cbn [firstn bytes_of_lines]. do 2 f_equal. lia.
    + rewrite <- seq_shift, map_map. apply map_ext. intros j.
      rewrite Hf. do 2 f_equal. lia.
Qed.

Lemma triple_inj {A B C : Type} (a a' : A) (b b' : B) (c c' : C) :
  (a, b, c) = (a', b', c') -> a = a' /\ b = b' /\ c = c'.
Proof. intros H. injection H as -> -> ->. repeat split. Qed.

Lemma Save_pdfContent_length (p : PDF) (pdfContent : list string) :
  Save_pdfContent p = Returns pdfContent ->
  length pdfContent = (24 + 22 * Z.to_nat (pageCount p))%nat.
Proof.
  intros H. apply Save_pdfContent_inv in H. subst pdfContent.
  rewrite length_app, preamble_lines_length,
    (flat_map_length_const _ 21%nat) by apply object_lines_length.
  rewrite int_range_length. lia.
Qed.

(** X16: what the cross-reference loop records in general.  As long as no
    counter wraps around, entry [i] of the table, for [i] from 1 to
    [4 + N*2], holds 11 plus the number of bytes of the first [i] lines of
    the file, and [startxref] holds that sum for [5 + N*2] lines: the loop
    follows the lines of the file one by one, starting 11 bytes behind the
    second line. *)
Theorem Save_xref_follows_lines
  (p : PDF) (pdfContent xref trailer : list string) :
  0 <= pageCount p < 2 ^ 60 ->
  bytes_of_lines pdfContent < 2 ^ 62 ->
  Save_parts p = Returns (pdfContent, xref, trailer) ->
  xref =
    (xref_head p ++
     map (fun i => (Sprintf_010d (11 + bytes_of_lines (firstn i pdfContent))
                    ++ " 00000 n ")%string)
         (seq 1 (Z.to_nat (4 + pageCount p * 2))))%list
  /\ nth_error trailer 6 =
       Some (Itoa (11 + bytes_of_lines
                          (firstn (Z.to_nat (5 + pageCount p * 2))
                                  pdfContent)))
  /\ (forall i, (0 < i)%nat ->
        len (Join (firstn i pdfContent) newline ++ newline)
        = bytes_of_lines (firstn i pdfContent)).
Proof.
  intros Hn Hb. unfold Save_parts.
  destruct (Save_pdfContent p) as [pc|msg] eqn:Epc; [|discriminate].
  cbn [bind].
  pose proof (Save_pdfContent_length p pc Epc) as Hlen.
  apply Save_pdfContent_inv in Epc.
  destruct (preamble_lines_start p) as [rest Hpre].
  rewrite Hpre in Epc. cbn [app] in Epc.
  set (tail := (rest ++ _)%list) in Epc. clearbody tail.
  set (m := Z.to_nat (4 + pageCount p * 2)).
  assert (Hr : int_range 1 (int64 (4 + int64 (pageCount p * 2)))
               = int_range (Z.of_nat 1) (Z.of_nat m)).
  { int64_norm. unfold m. f_equal. lia. }
  rewrite Hr.
  assert (H0 : int64 (0 + int64 (len (Join (firstn 2 pc) newline) + 2)) = 20).
  { subst pc. reflexivity. }
  rewrite H0.
  assert (Hskip : forall j,
            bytes_of_lines (firstn (S j) pc)
            = 9 + bytes_of_lines (firstn j (skipn 1 pc))).
  { intros j. subst pc. reflexivity. }
  intros H.
  assert (Hb' : bytes_of_lines pc < 2 ^ 62).
  { destruct (xref_loop pc _ _ _) as [[x o]|]; [|discriminate].
    cbn [bind] in H. apply Returns_inj, triple_inj in H as (<- & _).
    exact Hb. }
  rewrite xref_loop_offsets in H.
  - cbn [bind] in H. apply Returns_inj, triple_inj in H as (<- & <- & <-).
    split; [|split].
    + f_equal. rewrite <- seq_shift, map_map. apply map_ext. intros j.
      rewrite Hskip. do 2 f_equal. lia.
    + unfold trailer_lines. cbn [nth_error]. do 2 f_equal.
      replace (Z.to_nat (5 + pageCount p * 2)) with (S m) by (unfold m; lia).
      rewrite Hskip. lia.
    + intros i Hi. apply bytes_of_lines_Join.
      destruct i as [|i]; [lia|]. rewrite Epc. discriminate.
  - unfold m. lia.
  - lia.
  - pose proof (bytes_of_lines_firstn_le (S m) pc) as Hle.
    rewrite Hskip in Hle. lia.
Qed.

Lemma Save_xref_follows_lines_witness :
  exists pdfContent xref trailer,
    Save_parts sample_doc = Returns (pdfContent, xref, trailer)
    /\ nth_error xref 3 = Some "0000000020 00000 n "
    /\ bytes_of_lines (firstn 1 pdfContent) = 9
    /\ nth_error pdfContent 2 = Some "1 0 obj"
    /\ bytes_of_lines (firstn 2 pdfContent) = 19.
Proof.
  destruct (Save_parts sample_doc) as [[[pc xref] trailer]|msg] eqn:E;
    [|vm_compute in E; discriminate E].
  exists pc, xref, trailer. split; [reflexivity|].
  assert (Hn : 0 <= pageCount sample_doc < 2 ^ 60)
    by (vm_compute; split; congruence).
  assert (Hb : bytes_of_lines pc < 2 ^ 62).
  { vm_compute in E. injection E as <- _ _. vm_compute. reflexivity. }
  destruct (Save_xref_follows_lines sample_doc pc xref trailer Hn Hb E)
    as (Hx & _ & _).
  vm_compute in E. injection E as <- _ _.
  split; [rewrite Hx; vm_compute; reflexivity|].
  repeat split.
Defined.
